(** * ultra-doc-intelligence: the document pipeline, embedded and verified

    A shallow embedding of the Python sources under [app/]:
    - [app/services/parser.py]  ([_table_to_text], [parse_pdf], [parse_docx],
      [parse_txt], [parse_document]);
    - [app/services/rag.py]     ([_get_vectorstore], [store_chunks],
      [retrieve], [get_full_text]);
    - [app/services/llm.py]     ([ask_question], [extract_structured]);
    - [app/routers/documents.py] ([ask], [extract]).

    Conventions of the embedding.
    - A Python [str] is a list of Unicode code points ([list N]); string
      literals of the source are written [py "..."] (ASCII) with the one
      non-ASCII character of the source, the en dash U+2013, spelled out.
    - A Python [float] is an exact rational ([Q]); [round(x, 4)] is rounding
      to the nearest multiple of 1/10000, ties to even.  Binary rounding error
      of the float operations is not represented.
    - A raised exception is the [Err] alternative of [result]; code that
      touches the vector store or the LLM runs in the state-and-error monad
      [M] over a [World].
    - What lives outside the repository (pdfplumber, python-docx, the text
      splitter, the embedding distance, the LLM, the JSON decoder) enters as
      data or as a function argument of the definitions that use it. *)

From Stdlib Require Import ZArith QArith Qround Lqa String Ascii.
From Stdlib Require DecimalString.
From stdpp Require Import gmap strings list sorting.

Set Default Proof Using "Type".
Local Open Scope list_scope.

(** ** Python strings *)

Module PyStr.

Definition char := N.
Definition str := list N.

(** [py "abc"]: the code points of an ASCII literal. *)
Definition lit (s : string) : str :=
  map N_of_ascii (list_ascii_of_string s).
#[global] Arguments lit : simpl never.

Definition NL : char := 10%N.
Definition BACKTICK : char := 96%N.
Definition EN_DASH : char := 8211%N.

(** [c.isspace()]: the 29 code points Python treats as whitespace. *)
Definition isspace (c : char) : bool :=
  ((9 <=? c) && (c <=? 13) || (28 <=? c) && (c <=? 32)
   || (c =? 133) || (c =? 160) || (c =? 5760)
   || (8192 <=? c) && (c <=? 8202)
   || (c =? 8232) || (c =? 8233) || (c =? 8239) || (c =? 8287)
   || (c =? 12288))%N.

(** [bool(s)] for a string: non-empty. *)
Definition truthy {A} (l : list A) : bool :=
  match l with [] => false | _ :: _ => true end.

Fixpoint lstrip (s : str) : str :=
  match s with
  | [] => []
  | c :: s' => if isspace c then lstrip s' else s
  end.

Fixpoint rstrip (s : str) : str :=
  match s with
  | [] => []
  | c :: s' =>
      match rstrip s' with
      | [] => if isspace c then [] else [c]
      | r => c :: r
      end
  end.

(** [s.strip()] *)
Definition strip (s : str) : str := rstrip (lstrip s).

(** [s.startswith(p)] *)
Fixpoint startswith (p s : str) : bool :=
  match p, s with
  | [], _ => true
  | _ :: _, [] => false
  | a :: p', b :: s' => (a =? b)%N && startswith p' s'
  end.

(** [sep.join(l)] *)
Fixpoint join (sep : str) (l : list str) : str :=
  match l with
  | [] => []
  | [x] => x
  | x :: l' => x ++ sep ++ join sep l'
  end.

(** [s.split(sep)] for a non-empty separator: leftmost, non-overlapping
    occurrences.  [skip] counts the characters of a matched separator still
    to be passed over. *)
Fixpoint split_go (sep s : str) (skip : nat) : list str :=
  match s with
  | [] => [[]]
  | c :: s' =>
      match skip with
      | S k => split_go sep s' k
      | O =>
          if startswith sep s then [] :: split_go sep s' (length sep - 1)
          else match split_go sep s' 0 with
               | piece :: rest => (c :: piece) :: rest
               | [] => [[c]]
               end
      end
  end.

Definition split (sep s : str) : list str := split_go sep s 0.

(** [s.rpartition(c)] restricted to a one-character separator: the text
    before and after the last [c], when there is one. *)
Fixpoint rpartition (c : char) (s : str) : option (str * str) :=
  match s with
  | [] => None
  | x :: s' =>
      match rpartition c s' with
      | Some (a, b) => Some (x :: a, b)
      | None => if (x =? c)%N then Some ([], s') else None
      end
  end.

(** [s.rsplit(c, 1)] *)
Definition rsplit1 (c : char) (s : str) : list str :=
  match rpartition c s with
  | Some (a, b) => [a; b]
  | None => [s]
  end.

(** [l[-1]] on a list known to be non-empty ([d] is never returned by the
    callers below). *)
Definition last_item {A} (l : list A) (d : A) : A := List.last l d.

(** [c.lower()] on single code points: ASCII and Latin-1 capitals.  Capitals
    beyond U+00FF are left unchanged; none of them lowers to a letter of
    "pdf", "docx" or "txt". *)
Definition lower_char (c : char) : char :=
  (if (65 <=? c) && (c <=? 90) then c + 32
   else if (192 <=? c) && (c <=? 222) && negb (c =? 215) then c + 32
   else c)%N.

Definition lower (s : str) : str := map lower_char s.

(** [str(n)] for a non-negative integer. *)
Definition of_nat (n : nat) : str :=
  lit (DecimalString.NilEmpty.string_of_uint (Nat.to_uint n)).

End PyStr.

Import PyStr.
Abbreviation py := lit (only parsing).

(** ** Exceptions and results *)

Inductive exn :=
  | ValueError (msg : str)
  | KeyError (key : string)
  | HTTPException (status_code : Z) (detail : str)
  | LibraryError (origin : string).

Inductive result (A : Type) :=
  | Ok (a : A)
  | Err (e : exn).
Arguments Ok {A} a.
Arguments Err {A} e.

(** ** app/services/parser.py *)

Module Parser.

Definition DOT : char := 46%N.

(** A pdfplumber table: rows of cells, a cell being a string or [None]. *)
Definition pdf_table := list (list (option str)).

(** What [parse_pdf] reads of a pdfplumber page. *)
Record pdf_page := {
  extract_tables : list pdf_table;
  find_tables : list (Q * Q * Q * Q);     (* the [bbox] of each table found *)
  extract_text : option str
}.

(** What [parse_docx] reads of a python-docx document: for each table its
    rows of [cell.text], and [para.text] of each paragraph. *)
Record docx_document := {
  tables : list (list (list str));
  paragraphs : list str
}.

(** The files the parsers open.  [inl name] is the exception the library
    raised instead of returning (a missing or malformed file). *)
Record FileSystem := {
  pdfplumber_open : str -> string + list pdf_page;
  docx_Document : str -> string + docx_document;
  read_utf8 : str -> string + str
}.

Definition _table_to_text (table : pdf_table) : str :=
  let lines :=
    map (fun row =>
           let cells :=
             map (fun cell =>
                    match cell with
                    | Some c => if truthy c then strip c else []
                    | None => []
                    end) row in
           join (py " | ") cells) table in
  join [NL] lines.

Definition page_table_label (page_num : nat) : str :=
  py "[Page " ++ of_nat page_num ++ py " " ++ [EN_DASH] ++ py " Table]".
Definition page_text_label (page_num : nat) : str :=
  py "[Page " ++ of_nat page_num ++ py " " ++ [EN_DASH] ++ py " Text]".
Definition table_label (i : nat) : str :=
  py "[Table " ++ of_nat i ++ py "]".
Definition text_label : str := py "[Text]".

(** [for page_num, page in enumerate(pdf.pages, start=1)] *)
Definition enumerate {A} (start : nat) (l : list A) : list (nat * A) :=
  zip (seq start (length l)) l.

(** The cells collected in [table_texts]. *)
Definition table_cell_texts (tables : list pdf_table) : gset str :=
  list_to_set
    (flat_map (fun table =>
       flat_map (fun row =>
         flat_map (fun cell =>
           match cell with
           | Some c => if truthy c && truthy (strip c) then [strip c] else []
           | None => []
           end) row) table) tables).

(** The body of the page loop of [parse_pdf]: the sections one page appends. *)
Definition parse_pdf_page (page_num : nat) (page : pdf_page) : list str :=
  let tables := extract_tables page in
  let table_bboxes := if truthy tables then find_tables page else [] in
  let table_sections :=
    if truthy tables then
      flat_map (fun table =>
        let text := _table_to_text table in
        if truthy (strip text)
        then [page_table_label page_num ++ [NL] ++ text] else []) tables
    else [] in
  let text_sections :=
    if truthy table_bboxes then
      let full_text := default [] (extract_text page) in
      let table_texts := table_cell_texts tables in
      let remaining_text_parts :=
        flat_map (fun line =>
          let stripped := strip line in
          if truthy stripped && bool_decide (stripped ∉ table_texts)
          then [stripped] else []) (split [NL] full_text) in
      if truthy remaining_text_parts
      then [page_text_label page_num ++ [NL] ++ join [NL] remaining_text_parts]
      else []
    else
      match extract_text page with
      | Some text =>
          if truthy text && truthy (strip text)
          then [page_text_label page_num ++ [NL] ++ strip text] else []
      | None => []
      end in
  table_sections ++ text_sections.

Definition parse_pdf_pages (pages : list pdf_page) : list str :=
  flat_map (fun '(page_num, page) => parse_pdf_page page_num page)
           (enumerate 1 pages).

Definition parse_pdf (fs : FileSystem) (path : str) : result (list str) :=
  match pdfplumber_open fs path with
  | inr pages => Ok (parse_pdf_pages pages)
  | inl e => Err (LibraryError e)
  end.

Definition docx_table_sections (tbls : list (list (list str))) : list str :=
  flat_map (fun '(i, table) =>
    let rows := map (fun row => join (py " | ") (map strip row)) table in
    let text := join [NL] rows in
    if truthy (strip text) then [table_label i ++ [NL] ++ text] else [])
    (enumerate 1 tbls).

(** The paragraph loop of [parse_docx] with its trailing flush;
    [current_block] is the loop's accumulator. *)
Fixpoint docx_text_sections (paras : list str) (current_block : list str)
  : list str :=
  match paras with
  | [] =>
      if truthy current_block
      then [text_label ++ [NL] ++ join [NL] current_block] else []
  | para :: rest =>
      let text := strip para in
      if truthy text then docx_text_sections rest (current_block ++ [text])
      else if truthy current_block
      then (text_label ++ [NL] ++ join [NL] current_block)
             :: docx_text_sections rest []
      else docx_text_sections rest current_block
  end.

Definition parse_docx_document (doc : docx_document) : list str :=
  docx_table_sections (tables doc) ++ docx_text_sections (paragraphs doc) [].

Definition parse_docx (fs : FileSystem) (path : str) : result (list str) :=
  match docx_Document fs path with
  | inr doc => Ok (parse_docx_document doc)
  | inl e => Err (LibraryError e)
  end.

Definition parse_txt_content (content : str) : list str :=
  let blocks := split [NL; NL] content in
  flat_map (fun block =>
    let stripped := strip block in
    if truthy stripped then [text_label ++ [NL] ++ stripped] else []) blocks.

Definition parse_txt (fs : FileSystem) (path : str) : result (list str) :=
  match read_utf8 fs path with
  | inr content => Ok (parse_txt_content content)
  | inl e => Err (LibraryError e)
  end.

(** [path.rsplit(".", 1)[-1].lower()] *)
Definition extension (path : str) : str :=
  lower (last_item (rsplit1 DOT path) []).

(** The [ValueError] of the last branch of [parse_document]. *)
Definition UnsupportedFileType (ext : str) : exn :=
  ValueError (py "Unsupported file type: ." ++ ext).

Definition parse_document (fs : FileSystem) (path : str) : result (list str) :=
  let ext := extension path in
  if bool_decide (ext = py "pdf") then parse_pdf fs path
  else if bool_decide (ext = py "docx") then parse_docx fs path
  else if bool_decide (ext = py "txt") then parse_txt fs path
  else Err (UnsupportedFileType ext).

End Parser.

(** ** Floats as rationals *)

Module PyFloat.

Definition Qltb (x y : Q) : bool := negb (Qle_bool y x).

(** Nearest integer, ties to the even one. *)
Definition round_half_even (x : Q) : Z :=
  let f := Qfloor x in
  match (x - inject_Z f ?= 1 # 2)%Q with
  | Lt => f
  | Gt => (f + 1)%Z
  | Eq => if Z.even f then f else (f + 1)%Z
  end.

(** [round(x, 4)] *)
Definition round4 (x : Q) : Q :=
  Qred (round_half_even (x * 10000) # 10000).

(** [sum(l)] *)
Definition sum (l : list Q) : Q := fold_left Qplus l 0%Q.

(** [max(l)] of a non-empty list: the first of the largest items. *)
Definition max_from (first : Q) (rest : list Q) : Q :=
  fold_left (fun m x => if Qltb m x then x else m) rest first.

End PyFloat.

Import PyFloat.

(** ** The state-and-error monad of the services *)

Module Rag.

(** The metadata dict of a LangChain [Document]; its keys are the four the
    code writes.  A key that is absent is [None]. *)
Record Metadata := {
  source : option str;
  doc_id : option str;
  filename : option str;
  chunk_index : option Z
}.

Record Document := {
  page_content : str;
  metadata : Metadata
}.

(** A call recorded by the LLM provider. *)
Inductive llm_call :=
  | AskCall (context full_text question : str)
  | ExtractCall (full_text : str).

(** The persisted Chroma directory (collection name to rows, in the order the
    store returns them), the calls the LLM has received, and the number of
    uuids drawn so far. *)
Record World := {
  collections : gmap str (list Document);
  llm_calls : list llm_call;
  uuids_drawn : nat
}.

Definition empty_world : World :=
  {| collections := ∅; llm_calls := []; uuids_drawn := 0 |}.

(** The collaborators outside the repository. *)
Record Services := {
  (** [uuid.uuid4().hex] of the n-th draw *)
  uuid4_hex : nat -> str;
  (** [_splitter.split_text] *)
  split_text : str -> list str;
  (** cosine distance between the embeddings of a query and of a chunk *)
  embedding_distance : str -> str -> Q;
  (** the text the ask chain returns *)
  ask_llm : str -> str -> str -> str;
  (** the text the extract chain returns *)
  extract_llm : str -> str
}.

Definition M (A : Type) : Type := World -> result A * World.

Definition ret {A} (a : A) : M A := fun w => (Ok a, w).
Definition raise {A} (e : exn) : M A := fun w => (Err e, w).
Definition bind {A B} (m : M A) (k : A -> M B) : M B :=
  fun w =>
    match m w with
    | (Ok a, w') => k a w'
    | (Err e, w') => (Err e, w')
    end.
(** [try: m  except Exception: handler] *)
Definition try_except {A} (m : M A) (handler : exn -> M A) : M A :=
  fun w =>
    match m w with
    | (Ok a, w') => (Ok a, w')
    | (Err e, w') => handler e w'
    end.

#[global] Instance M_ret : MRet M := @ret.
#[global] Instance M_bind : MBind M := fun A B k m => bind m k.

(** Stable sort by a key, ascending: [list.sort(key=...)]. *)
Section Sorting.
Context {A K : Type} (leb : K -> K -> bool) (key : A -> K).

Fixpoint insert_by (x : A) (l : list A) : list A :=
  match l with
  | [] => [x]
  | y :: l' => if leb (key x) (key y) then x :: l else y :: insert_by x l'
  end.

Definition sort_by (l : list A) : list A := foldr insert_by [] l.
End Sorting.

(** *** The Chroma client (langchain_chroma) *)

Section Chroma.
Variable sv : Services.

(** [Chroma(collection_name=name, ...)]: the constructor obtains its
    collection with [get_or_create_collection], so a name that has no
    collection yet gets an empty one. *)
Definition Chroma (name : str) : M str :=
  fun w =>
    match collections w !! name with
    | Some _ => (Ok name, w)
    | None =>
        (Ok name,
         {| collections := <[name := []]> (collections w);
            llm_calls := llm_calls w;
            uuids_drawn := uuids_drawn w |})
    end.

Definition rows (name : str) (w : World) : list Document :=
  default [] (collections w !! name).

(** [vectorstore.similarity_search_with_score(query, k)]: the [k] rows
    nearest to the query, nearest first, each with its distance. *)
Definition similarity_search_with_score (name query : str) (k : nat)
  : M (list (Document * Q)) :=
  fun w =>
    let scored :=
      map (fun d => (d, embedding_distance sv query (page_content d)))
          (rows name w) in
    (Ok (take k (sort_by Qle_bool snd scored)), w).

(** [vectorstore.get(include=["documents", "metadatas"])], zipped. *)
Definition get (name : str) : M (list (str * Metadata)) :=
  fun w => (Ok (map (fun d => (page_content d, metadata d)) (rows name w)), w).

(** [Chroma.from_documents(documents, collection_name=name, ...)] *)
Definition from_documents (documents : list Document) (name : str) : M unit :=
  fun w =>
    (Ok tt,
     {| collections := <[name := rows name w ++ documents]> (collections w);
        llm_calls := llm_calls w;
        uuids_drawn := uuids_drawn w |}).
End Chroma.

(** *** app/services/rag.py *)

Section Services.
Variable sv : Services.

Definition uuid4 : M str :=
  fun w =>
    (Ok (uuid4_hex sv (uuids_drawn w)),
     {| collections := collections w;
        llm_calls := llm_calls w;
        uuids_drawn := S (uuids_drawn w) |}).

(** [f"doc_{doc_id}"] *)
Definition collection_name (doc_id : str) : str := py "doc_" ++ doc_id.

Definition _get_vectorstore (doc_id : str) : M str :=
  Chroma (collection_name doc_id).

(** [_splitter.split_documents(docs)]: every piece of a document carries a
    copy of that document's metadata. *)
Definition split_documents (docs : list Document) : list Document :=
  flat_map (fun doc =>
    map (fun chunk => {| page_content := chunk; metadata := metadata doc |})
        (split_text sv (page_content doc))) docs.

(** [doc.metadata.update({"doc_id": ..., "filename": ..., "chunk_index": i})] *)
Definition update_metadata (id fname : str) (i : nat) (doc : Document)
  : Document :=
  {| page_content := page_content doc;
     metadata := {| source := source (metadata doc);
                    doc_id := Some id;
                    filename := Some fname;
                    chunk_index := Some (Z.of_nat i) |} |}.

(** The documents [store_chunks] hands to [Chroma.from_documents]. *)
Definition indexed_documents (id : str) (sections : list str) (fname : str)
  : list Document :=
  let docs :=
    map (fun s =>
           {| page_content := s;
              metadata := {| source := Some fname; doc_id := None;
                             filename := None; chunk_index := None |} |})
        sections in
  let split_docs := split_documents docs in
  imap (update_metadata id fname) split_docs.

Definition store_chunks (sections : list str) (fname : str) : M (str * nat) :=
  hex ← uuid4;
  let id := take 12 hex in
  let split_docs := indexed_documents id sections fname in
  _ ← from_documents split_docs (collection_name id);
  ret (id, length split_docs).

(** The dict [{text, score, chunk_index}] built by [retrieve]. *)
Record Chunk := {
  text : str;
  score : Q;
  index : Z
}.

Definition retrieve (id query : str) (top_k : nat) : M (list Chunk) :=
  vectorstore ← _get_vectorstore id;
  results ← similarity_search_with_score sv vectorstore query top_k;
  ret (map (fun '(doc, distance) =>
              let similarity := (1 - distance)%Q in
              {| text := page_content doc;
                 score := round4 similarity;
                 index := default 0%Z (chunk_index (metadata doc)) |})
           results).

(** The sort key [x[1]["chunk_index"]]; a missing key raises. *)
Fixpoint sort_keys (paired : list (str * Metadata))
  : result (list (str * Z)) :=
  match paired with
  | [] => Ok []
  | (doc, md) :: rest =>
      match chunk_index md with
      | None => Err (KeyError "chunk_index")
      | Some i =>
          match sort_keys rest with
          | Ok keyed => Ok ((doc, i) :: keyed)
          | Err e => Err e
          end
      end
  end.

Definition get_full_text (id : str) : M str :=
  vectorstore ← _get_vectorstore id;
  paired ← get vectorstore;
  match sort_keys paired with
  | Err e => raise e
  | Ok keyed =>
      let sorted := sort_by Z.leb snd keyed in
      ret (join [NL; NL] (map fst sorted))
  end.

End Services.

End Rag.

Import Rag.

(** ** app/schemas.py *)

Module Schemas.

Record AskResponse := {
  answer : str;
  source_text : option str;
  confidence_score : Q
}.

End Schemas.

(** ** app/services/llm.py *)

Module Llm.

(** The Python values [json.loads] returns. *)
#[warnings="-register-all"]
Inductive json :=
  | JNull
  | JBool (b : bool)
  | JInt (z : Z)
  | JFloat (literal : str)
  | JStr (s : str)
  | JList (items : list json)
  | JDict (items : list (str * json)).

(** The dict [ask_question] returns. *)
Record AskResult := {
  answer : str;
  source_text : str;
  confidence_score : Q
}.

Definition FENCE : str := [BACKTICK; BACKTICK; BACKTICK].

(** The body of [if raw.startswith(fence)]: drop every line whose stripped
    text starts with the fence. *)
Definition strip_fences (raw : str) : str :=
  if startswith FENCE raw then
    let lines := split [NL] raw in
    let lines :=
      List.filter (fun l => negb (startswith FENCE (strip l))) lines in
    join [NL] lines
  else raw.

Definition parse_failure (raw : str) : json :=
  JDict [(py "raw_response", JStr raw);
         (py "error", JStr (py "Failed to parse LLM JSON output"))].

Section Llm.
Variable sv : Services.
(** [json.loads]: [None] stands for [json.JSONDecodeError]. *)
Variable json_loads : str -> option json.

(** [chain.invoke] of the ask chain: one call to the LLM, recorded. *)
Definition invoke_ask_chain (context full_text question : str) : M str :=
  fun w =>
    (Ok (ask_llm sv context full_text question),
     {| collections := collections w;
        llm_calls := llm_calls w ++ [AskCall context full_text question];
        uuids_drawn := uuids_drawn w |}).

(** [chain.invoke] of the extract chain. *)
Definition invoke_extract_chain (full_text : str) : M str :=
  fun w =>
    (Ok (extract_llm sv full_text),
     {| collections := collections w;
        llm_calls := llm_calls w ++ [ExtractCall full_text];
        uuids_drawn := uuids_drawn w |}).

Definition ask_question (query : str) (retrieved_chunks : list Chunk)
    (full_text : str) : M AskResult :=
  let chunk_texts := map text retrieved_chunks in
  let context_block :=
    join ([NL; NL] ++ py "---" ++ [NL; NL]) chunk_texts in
  answer ← invoke_ask_chain context_block full_text query;
  let scores := map score retrieved_chunks in
  let confidence :=
    if truthy scores
    then round4 (sum scores / inject_Z (Z.of_nat (length scores)))
    else 0%Q in
  let source_text := match chunk_texts with t :: _ => t | [] => [] end in
  mret {| answer := strip answer;
          source_text := source_text;
          confidence_score := confidence |}.

Definition extract_structured (full_text : str) : M json :=
  response ← invoke_extract_chain full_text;
  let raw := strip response in
  let raw := strip_fences raw in
  match json_loads raw with
  | Some parsed => mret parsed
  | None => mret (parse_failure raw)
  end.
End Llm.

End Llm.

(** ** app/routers/documents.py *)

Module Documents.

Definition SIMILARITY_THRESHOLD : Q := 3 # 10.

(** The 404 both routes raise. *)
Definition DocumentNotFound (id : str) : exn :=
  HTTPException 404 (py "Document '" ++ id ++ py "' not found").

(** [max(c["score"] for c in chunks) if chunks else 0.0] *)
Definition best_score_of (chunks : list Chunk) : Q :=
  match map score chunks with
  | [] => 0%Q
  | s :: rest => max_from s rest
  end.

(** The response model built from the dict [ask_question] returns. *)
Definition AskResponse_of (r : Llm.AskResult) : Schemas.AskResponse :=
  {| Schemas.answer := Llm.answer r;
     Schemas.source_text := Some (Llm.source_text r);
     Schemas.confidence_score := Llm.confidence_score r |}.

Section Routes.
Variable sv : Services.
Variable json_loads : str -> option Llm.json.

Definition ask (id question : str) : M Schemas.AskResponse :=
  chunks ← try_except (retrieve sv id question 3)
                      (fun _ => raise (DocumentNotFound id));
  let best_score := best_score_of chunks in
  if Qltb best_score SIMILARITY_THRESHOLD then
    mret {| Schemas.answer := py "Not found in document.";
            Schemas.source_text := None;
            Schemas.confidence_score := round4 best_score |}
  else
    full_text ← get_full_text id;
    result ← Llm.ask_question sv question chunks full_text;
    mret (AskResponse_of result).

Definition extract (id : str) : M Llm.json :=
  full_text ← try_except (get_full_text id)
                         (fun _ => raise (DocumentNotFound id));
  Llm.extract_structured sv json_loads full_text.
End Routes.

End Documents.

(** ** The JSON decoder

    [json.loads] of the Python standard library, as a lexer over code points
    followed by a parser over tokens: RFC 8259 with the decoder's
    extensions ([NaN], [Infinity], [-Infinity]) and its strict treatment of
    control characters in strings.  [None] is [json.JSONDecodeError].  The
    interpreter's resource limits (recursion depth, length of integer
    literals) are not represented. *)

Module JsonDecoder.
Import Llm.

Inductive token :=
  | TLBrace | TRBrace | TLBracket | TRBracket | TComma | TColon
  | TString (s : str)
  | TNumber (lexeme : str) (is_float : bool)
  | TNull | TTrue | TFalse | TNaN | TInfinity | TNegInfinity.

Definition is_json_ws (c : char) : bool :=
  ((c =? 32) || (c =? 9) || (c =? 10) || (c =? 13))%N.

Definition is_digit (c : char) : bool := ((48 <=? c) && (c <=? 57))%N.

Definition hex_value (c : char) : option N :=
  (if (48 <=? c) && (c <=? 57) then Some (c - 48)
   else if (97 <=? c) && (c <=? 102) then Some (c - 87)
   else if (65 <=? c) && (c <=? 70) then Some (c - 55)
   else None)%N.

(** Where the lexer stands inside a number literal. *)
Inductive num_state :=
  | NMinus | NZero | NInt | NDot | NFrac | NExp | NExpSign | NExpDigits.

Definition num_accepting (ns : num_state) : bool :=
  match ns with
  | NZero | NInt | NFrac | NExpDigits => true
  | _ => false
  end.

Definition num_is_float (ns : num_state) : bool :=
  match ns with
  | NFrac | NExpDigits => true
  | _ => false
  end.

Definition num_step (ns : num_state) (c : char) : option num_state :=
  let e := ((c =? 101) || (c =? 69))%N in
  let dot := (c =? 46)%N in
  match ns with
  | NMinus => if (c =? 48)%N then Some NZero
              else if is_digit c then Some NInt else None
  | NZero => if dot then Some NDot else if e then Some NExp else None
  | NInt => if is_digit c then Some NInt
            else if dot then Some NDot else if e then Some NExp else None
  | NDot => if is_digit c then Some NFrac else None
  | NFrac => if is_digit c then Some NFrac
             else if e then Some NExp else None
  | NExp => if ((c =? 43) || (c =? 45))%N then Some NExpSign
            else if is_digit c then Some NExpDigits else None
  | NExpSign => if is_digit c then Some NExpDigits else None
  | NExpDigits => if is_digit c then Some NExpDigits else None
  end.

(** The lexer's mode; accumulators hold their characters newest first.
    [hi] tells that the newest character of a string is a high surrogate
    written as a [\u] escape, which a following low-surrogate escape joins. *)
Inductive mode :=
  | Top
  | InStr (acc : str) (hi : bool)
  | InEsc (acc : str) (hi : bool)
  | InUni (acc : str) (hi : bool) (remaining : nat) (value : N)
  | InNum (ns : num_state) (lexeme : str)
  | InLit (expected : str) (tok : token).

Definition lex_state := (mode * list token)%type.

Definition top_step (toks : list token) (c : char) : option lex_state :=
  (if is_json_ws c then Some (Top, toks)
   else if c =? 123 then Some (Top, TLBrace :: toks)
   else if c =? 125 then Some (Top, TRBrace :: toks)
   else if c =? 91 then Some (Top, TLBracket :: toks)
   else if c =? 93 then Some (Top, TRBracket :: toks)
   else if c =? 44 then Some (Top, TComma :: toks)
   else if c =? 58 then Some (Top, TColon :: toks)
   else if c =? 34 then Some (InStr [] false, toks)
   else if c =? 45 then Some (InNum NMinus [c], toks)
   else if c =? 48 then Some (InNum NZero [c], toks)
   else if is_digit c then Some (InNum NInt [c], toks)
   else if c =? 110 then Some (InLit (py "ull") TNull, toks)
   else if c =? 116 then Some (InLit (py "rue") TTrue, toks)
   else if c =? 102 then Some (InLit (py "alse") TFalse, toks)
   else if c =? 78 then Some (InLit (py "aN") TNaN, toks)
   else if c =? 73 then Some (InLit (py "nfinity") TInfinity, toks)
   else None)%N.

(** The character an escape letter stands for. *)
Definition escape_char (c : char) : option char :=
  (if c =? 34 then Some 34 else if c =? 92 then Some 92
   else if c =? 47 then Some 47 else if c =? 98 then Some 8
   else if c =? 102 then Some 12 else if c =? 110 then Some 10
   else if c =? 114 then Some 13 else if c =? 116 then Some 9
   else None)%N.

(** Appends the code point of a finished [\uXXXX] escape. *)
Definition push_escape (acc : str) (hi : bool) (v : N) : mode :=
  let low := ((56320 <=? v) && (v <=? 57343))%N in
  let high := ((55296 <=? v) && (v <=? 56319))%N in
  match acc with
  | h :: acc' =>
      if hi && low
      then InStr ((65536 + (h - 55296) * 1024 + (v - 56320))%N :: acc') false
      else InStr (v :: acc) high
  | [] => InStr [v] high
  end.

Definition number_token (ns : num_state) (lexeme : str) : token :=
  TNumber (rev lexeme) (num_is_float ns).

Definition step (st : lex_state) (c : char) : option lex_state :=
  let '(m, toks) := st in
  match m with
  | Top => top_step toks c
  | InStr acc hi =>
      (if c =? 34 then Some (Top, TString (rev acc) :: toks)
       else if c =? 92 then Some (InEsc acc hi, toks)
       else if c <? 32 then None
       else Some (InStr (c :: acc) false, toks))%N
  | InEsc acc hi =>
      if (c =? 117)%N then Some (InUni acc hi 4 0%N, toks)
      else match escape_char c with
           | Some x => Some (InStr (x :: acc) false, toks)
           | None => None
           end
  | InUni acc hi remaining v =>
      match hex_value c with
      | None => None
      | Some h =>
          let v' := (v * 16 + h)%N in
          match remaining with
          | S (S k) => Some (InUni acc hi (S k) v', toks)
          | _ => Some (push_escape acc hi v', toks)
          end
      end
  | InNum ns lexeme =>
      match num_step ns c with
      | Some ns' => Some (InNum ns' (c :: lexeme), toks)
      | None =>
          match ns with
          | NMinus =>
              if (c =? 73)%N
              then Some (InLit (py "nfinity") TNegInfinity, toks) else None
          | _ =>
              if num_accepting ns
              then top_step (number_token ns lexeme :: toks) c else None
          end
      end
  | InLit expected tok =>
      match expected with
      | e :: rest =>
          if (c =? e)%N
          then match rest with
               | [] => Some (Top, tok :: toks)
               | _ :: _ => Some (InLit rest tok, toks)
               end
          else None
      | [] => None
      end
  end.

(** What the lexer returns when the input ends in state [st]. *)
Definition finish (st : lex_state) : option (list token) :=
  let '(m, toks) := st in
  match m with
  | Top => Some (rev toks)
  | InNum ns lexeme =>
      if num_accepting ns then Some (rev (number_token ns lexeme :: toks))
      else None
  | _ => None
  end.

Fixpoint lex_run (st : lex_state) (s : str) : option (list token) :=
  match s with
  | [] => finish st
  | c :: s' =>
      match step st c with
      | Some st' => lex_run st' s'
      | None => None
      end
  end.

Definition tokenize (s : str) : option (list token) := lex_run (Top, []) s.

(** [int(lexeme)] for a literal made of an optional sign and digits. *)
Definition int_of_lexeme (lexeme : str) : Z :=
  let digits (l : str) : Z :=
    fold_left (fun a c => (a * 10 + Z.of_N (c - 48))%Z) l 0%Z in
  match lexeme with
  | c :: l => if (c =? 45)%N then (- digits l)%Z else digits lexeme
  | [] => 0%Z
  end.

(** [d[k] = v] on an insertion-ordered dict. *)
Fixpoint dict_set (k : str) (v : json) (d : list (str * json))
  : list (str * json) :=
  match d with
  | [] => [(k, v)]
  | (k', v') :: d' =>
      if bool_decide (k = k') then (k, v) :: d'
      else (k', v') :: dict_set k v d'
  end.

(** The parser over tokens.  [parse_items] and [parse_members] read the rest
    of an array or object whose first element is about to start; their
    accumulators hold what was read so far. *)
Fixpoint parse_value (fuel : nat) (ts : list token)
  : option (json * list token) :=
  match fuel with
  | O => None
  | S fuel' =>
      match ts with
      | TNull :: r => Some (JNull, r)
      | TTrue :: r => Some (JBool true, r)
      | TFalse :: r => Some (JBool false, r)
      | TNaN :: r => Some (JFloat (py "NaN"), r)
      | TInfinity :: r => Some (JFloat (py "Infinity"), r)
      | TNegInfinity :: r => Some (JFloat (py "-Infinity"), r)
      | TString s :: r => Some (JStr s, r)
      | TNumber lexeme is_float :: r =>
          Some (if is_float then JFloat lexeme
                else JInt (int_of_lexeme lexeme), r)
      | TLBracket :: TRBracket :: r => Some (JList [], r)
      | TLBracket :: r => parse_items fuel' r []
      | TLBrace :: TRBrace :: r => Some (JDict [], r)
      | TLBrace :: r => parse_members fuel' r []
      | _ => None
      end
  end
with parse_items (fuel : nat) (ts : list token) (acc : list json)
  : option (json * list token) :=
  match fuel with
  | O => None
  | S fuel' =>
      match parse_value fuel' ts with
      | Some (v, TComma :: r) => parse_items fuel' r (acc ++ [v])
      | Some (v, TRBracket :: r) => Some (JList (acc ++ [v]), r)
      | _ => None
      end
  end
with parse_members (fuel : nat) (ts : list token) (acc : list (str * json))
  : option (json * list token) :=
  match fuel with
  | O => None
  | S fuel' =>
      match ts with
      | TString k :: TColon :: r =>
          match parse_value fuel' r with
          | Some (v, TComma :: r') => parse_members fuel' r' (dict_set k v acc)
          | Some (v, TRBrace :: r') => Some (JDict (dict_set k v acc), r')
          | _ => None
          end
      | _ => None
      end
  end.

Definition json_loads (s : str) : option json :=
  match tokenize s with
  | None => None
  | Some ts =>
      match parse_value (S (length ts)) ts with
      | Some (v, []) => Some v
      | _ => None
      end
  end.

End JsonDecoder.

(** ** Worlds the service can be in *)

Module Service.

Inductive request :=
  | StoreChunks (sections : list str) (fname : str)
  | Ask (id question : str)
  | Extract (id : str).

(** The world a request leaves behind. *)
Definition serve (sv : Services) (json_loads : str -> option Llm.json)
    (r : request) (w : World) : World :=
  match r with
  | StoreChunks sections fname => snd (store_chunks sv sections fname w)
  | Ask id question => snd (Documents.ask sv id question w)
  | Extract id => snd (Documents.extract sv json_loads id w)
  end.

Inductive reachable (sv : Services) (json_loads : str -> option Llm.json)
  : World -> Prop :=
  | reachable_empty : reachable sv json_loads empty_world
  | reachable_serve w r :
      reachable sv json_loads w ->
      reachable sv json_loads (serve sv json_loads r w).

End Service.

(** ** Vocabulary of the statements *)

Module Spec.
Import Parser.

(** A section: a label line, a newline, non-empty content. *)
Definition labelled (is_label : str -> Prop) (section : str) : Prop :=
  exists label content,
    section = label ++ [NL] ++ content
    /\ is_label label /\ (NL ∉ label) /\ content <> [].

Definition pdf_label (l : str) : Prop :=
  exists n, l = page_table_label n \/ l = page_text_label n.
Definition docx_label (l : str) : Prop :=
  (exists i, l = table_label i) \/ l = text_label.
Definition txt_label (l : str) : Prop := l = text_label.

(** Ascending chunk_index between two stored rows. *)
Definition index_le (a b : Document) : Prop :=
  match chunk_index (metadata a), chunk_index (metadata b) with
  | Some i, Some j => (i <= j)%Z
  | _, _ => False
  end.

(** Every stored row has a chunk_index. *)
Definition indexed (w : World) : Prop :=
  forall name docs,
    collections w !! name = Some docs ->
    Forall (fun d => is_Some (chunk_index (metadata d))) docs.

(** The world after the Chroma constructor has run for [name]. *)
Definition opened (name : str) (w : World) : World := snd (Chroma name w).

(** The world after one more call was recorded by the LLM provider. *)
Definition logged (call : llm_call) (w : World) : World :=
  {| collections := collections w;
     llm_calls := llm_calls w ++ [call];
     uuids_drawn := uuids_drawn w |}.

(** The sort key of [get_full_text], for rows that have one. *)
Definition index_of (d : Document) : Z :=
  default 0%Z (chunk_index (metadata d)).

(** The dict [retrieve] builds from one search result. *)
Definition chunk_of (r : Document * Q) : Chunk :=
  {| text := page_content r.1;
     score := round4 (1 - r.2);
     index := index_of r.1 |}.

(** What [similarity_search_with_score] hands to [retrieve]. *)
Definition search_results (sv : Services) (id query : str) (w : World)
  : list (Document * Q) :=
  take 3 (sort_by Qle_bool snd
            (map (fun d => (d, embedding_distance sv query (page_content d)))
                 (rows (collection_name id) w))).

(** The similarities before [retrieve] rounds them. *)
Definition unrounded_scores (sv : Services) (id query : str) (w : World)
  : list Q :=
  map (fun '(_, distance) => (1 - distance)%Q) (search_results sv id query w).

(** [max(...) if ... else 0.0] on a list of scores. *)
Definition best_of (scores : list Q) : Q :=
  match scores with
  | [] => 0%Q
  | s :: rest => max_from s rest
  end.

(** The response of the short-circuit branch of [ask]. *)
Definition not_found_response (confidence : Q) : Schemas.AskResponse :=
  {| Schemas.answer := py "Not found in document.";
     Schemas.source_text := None;
     Schemas.confidence_score := confidence |}.

(** [ask] answered without calling the LLM. *)
Definition short_circuits (sv : Services) (id query : str) (w : World) : Prop :=
  exists c, fst (Documents.ask sv id query w) = Ok (not_found_response c)
  /\ llm_calls (snd (Documents.ask sv id query w)) = llm_calls w.

(** [ask] called the LLM (once) and answered from it. *)
Definition takes_llm_path (sv : Services) (id query : str) (w : World) : Prop :=
  exists context full_text resp,
    llm_calls (snd (Documents.ask sv id query w))
      = llm_calls w ++ [AskCall context full_text query]
    /\ fst (Documents.ask sv id query w) = Ok resp
    /\ Schemas.answer resp = strip (ask_llm sv context full_text query).

(** A line whose first character that is not white space, if any, is not a
    backtick. *)
Definition line_ok (l : str) : Prop :=
  match lstrip l with
  | c :: _ => c <> BACKTICK
  | [] => True
  end.

(** The lines of a text are fine, the first one possibly being the rest of
    a line already begun ([mid]). *)
Definition lines_ok (mid : bool) (s : str) : Prop :=
  match split [NL] s with
  | first :: rest => (mid = true \/ line_ok first) /\ Forall line_ok rest
  | [] => True
  end.

(** The literals the lexer expects are made of letters. *)
Definition wf_mode (m : JsonDecoder.mode) : Prop :=
  match m with
  | JsonDecoder.InLit expected _ => Forall (fun c => isspace c = false) expected
  | _ => True
  end.

(** A response wrapped in a Markdown code fence: an opening fence line with
    an optional info string, the payload, a closing fence line. *)
Definition fenced (info payload : str) : str :=
  Llm.FENCE ++ info ++ [NL] ++ payload ++ [NL] ++ Llm.FENCE.

End Spec.

(** ** Sample collaborators, for the examples *)

Module Sample.
Import Parser.

Definition QUOTE : char := 34%N.

(** Splits a text into pieces of at most three characters. *)
Fixpoint chop (fuel : nat) (s : str) : list str :=
  match fuel, s with
  | S f, _ :: _ => take 3 s :: chop f (drop 3 s)
  | _, _ => []
  end.

Definition services (distance : Q) (extract_reply : str) : Services :=
  {| uuid4_hex := fun n => py "3f2a9c0d1b7e4a5f8c6d" ++ of_nat n;
     split_text := fun s => chop (length s) s;
     embedding_distance := fun _ _ => distance;
     ask_llm := fun context _ _ => context;
     extract_llm := fun _ => extract_reply |}.

(** Embedding distance 1/2 for every chunk; the extract chain answers
    with an empty JSON object. *)
Definition demo : Services := services (1 # 2) (py "{}").

(** Embedding distance 0.70004 for every chunk: similarity 0.29996. *)
Definition near_miss : Services := services (70004 # 100000) (py "{}").

(** The world after one upload of a one-section document. *)
Definition one_upload (sv : Services) : World :=
  Service.serve sv JsonDecoder.json_loads
    (Service.StoreChunks [py "Rate: 1200"] (py "rate.txt")) empty_world.

(** The identifier that upload was given. *)
Definition uploaded_id : str := py "3f2a9c0d1b7e".

Definition files : FileSystem :=
  {| pdfplumber_open := fun _ =>
       inr [ {| extract_tables := [[[Some (py "Rate"); Some (py " 1200 ")]]];
                find_tables := [(0, 0, 10, 10)%Q];
                extract_text := Some (py "Rate" ++ [NL] ++ py "Carrier: ACME") |} ];
     docx_Document := fun _ =>
       inr {| tables := [[[py "Rate"; py "1200"]]];
              paragraphs := [py "Pickup"; py " at noon"; []; py "Deliver"] |};
     read_utf8 := fun _ =>
       inr (py "Shipper: ACME" ++ [NL; NL] ++ py "  Rate: 1200 USD ") |}.

End Sample.

(** ** os.path (posixpath) *)

Module OsPath.

Definition SEP : char := 47%N.
Definition EXTSEP : char := 46%N.

(** [p.rfind(c)] over the text that starts at index [i]: the index of the
    last [c], or -1. *)
Fixpoint rfind_from (c : char) (p : str) (i : Z) : Z :=
  match p with
  | [] => (-1)%Z
  | x :: p' =>
      let r := rfind_from c p' (i + 1) in
      if (0 <=? r)%Z then r else if (x =? c)%N then i else (-1)%Z
  end.

Definition rfind (c : char) (p : str) : Z := rfind_from c p 0.

(** [p[i:j]] for indices that are not negative. *)
Definition slice (p : str) (i j : Z) : str :=
  take (Z.to_nat j - Z.to_nat i) (drop (Z.to_nat i) p).

(** The loop of [genericpath._splitext] over the characters between the last
    separator and the last dot: it returns at the first one that is not a
    dot. *)
Fixpoint has_non_dot (chars : str) : bool :=
  match chars with
  | [] => false
  | c :: rest => if negb (c =? EXTSEP)%N then true else has_non_dot rest
  end.

(** [os.path.splitext(p)] *)
Definition splitext (p : str) : str * str :=
  let sepIndex := rfind SEP p in
  let dotIndex := rfind EXTSEP p in
  if (sepIndex <? dotIndex)%Z && has_non_dot (slice p (sepIndex + 1) dotIndex)
  then (take (Z.to_nat dotIndex) p, drop (Z.to_nat dotIndex) p)
  else (p, []).

(** [s.endswith(suffix)] *)
Definition endswith (suffix s : str) : bool :=
  startswith (rev suffix) (rev s).

(** [os.path.join(a, b)] *)
Definition join (a b : str) : str :=
  if startswith [SEP] b then b
  else if negb (truthy a) || endswith [SEP] a then a ++ b
  else a ++ [SEP] ++ b.

End OsPath.

(** ** app/routers/documents.py: upload *)

Module Upload.
Import Parser.

(** What the three libraries make of the bytes of one file. *)
Record file_image := {
  as_pdf : string + list pdf_page;
  as_docx : string + docx_document;
  as_text : string + str
}.

(** The [UploadFile] of a request. *)
Record UploadFile := {
  filename : option str;
  file : file_image
}.

(** [UploadResponse] of app/schemas.py. *)
Record UploadResponse := {
  doc_id : str;
  response_filename : str;
  num_chunks : nat;
  message : str
}.

Definition SUPPORTED_EXTENSIONS : gset str :=
  {[ py ".pdf"; py ".docx"; py ".txt" ]}.

(** [with open(path, "wb") as f: shutil.copyfileobj(file.file, f)]: from then
    on the libraries read the uploaded bytes at [path].  The write itself is
    taken to succeed. *)
Definition write_file (path : str) (img : file_image) (fs : FileSystem)
  : FileSystem :=
  {| pdfplumber_open := fun p =>
       if bool_decide (p = path) then as_pdf img else pdfplumber_open fs p;
     docx_Document := fun p =>
       if bool_decide (p = path) then as_docx img else docx_Document fs p;
     read_utf8 := fun p =>
       if bool_decide (p = path) then as_text img else read_utf8 fs p |}.

Definition unsupported_detail (ext : str) : str :=
  py "Unsupported file type '" ++ ext ++ py "'. Supported: PDF, DOCX, TXT.".

Definition no_text_detail : str :=
  py "No text could be extracted from the document".

(** The route: what it returns, the files, and the world it leaves. *)
Definition upload (sv : Services) (UPLOAD_DIR : str) (f : UploadFile)
    (fs : FileSystem) (w : World)
  : result UploadResponse * FileSystem * World :=
  match filename f with
  | None => (Err (HTTPException 400 (py "No filename provided")), fs, w)
  | Some name =>
      if negb (truthy name)
      then (Err (HTTPException 400 (py "No filename provided")), fs, w)
      else
        let ext := lower (OsPath.splitext name).2 in
        if bool_decide (ext ∉ SUPPORTED_EXTENSIONS)
        then (Err (HTTPException 400 (unsupported_detail ext)), fs, w)
        else
          let dest_path := OsPath.join UPLOAD_DIR name in
          let fs' := write_file dest_path (file f) fs in
          match parse_document fs' dest_path with
          | Err e => (Err e, fs', w)
          | Ok sections =>
              if negb (truthy sections)
              then (Err (HTTPException 422 no_text_detail), fs', w)
              else
                match store_chunks sv sections name w with
                | (Ok (id, n), w') =>
                    (Ok {| doc_id := id;
                           response_filename := name;
                           num_chunks := n;
                           message :=
                             py "Document uploaded and indexed successfully." |},
                     fs', w')
                | (Err e, w') => (Err e, fs', w')
                end
          end
  end.

End Upload.

(** ** Further vocabulary and samples *)

Module Spec2.
Import Parser.

(** How [parse_docx] renders one block of paragraphs. *)
Definition text_section (block : list str) : str :=
  text_label ++ [NL] ++ join [NL] block.

(** The stripped cells of a page's tables, as [parse_pdf] collects them. *)
Definition is_table_cell (page : pdf_page) (s : str) : Prop :=
  s ∈ table_cell_texts (extract_tables page).


(** An uploaded text file. *)
Definition text_upload (name content : str) : Upload.UploadFile :=
  {| Upload.filename := Some name;
     Upload.file := {| Upload.as_pdf := inl "PDFSyntaxError"%string;
                       Upload.as_docx := inl "PackageNotFoundError"%string;
                       Upload.as_text := inr content |} |}.

(** A disk on which nothing can be opened. *)
Definition no_files : FileSystem :=
  {| pdfplumber_open := fun _ => inl "FileNotFoundError"%string;
     docx_Document := fun _ => inl "PackageNotFoundError"%string;
     read_utf8 := fun _ => inl "FileNotFoundError"%string |}.

(** A row as another writer might leave it: no chunk_index. *)
Definition bare_row (content : str) : Document :=
  {| page_content := content;
     metadata := {| source := None; doc_id := None; filename := None;
                    chunk_index := None |} |}.

Definition world_with (name : str) (docs : list Document) : World :=
  {| collections := {[ name := docs ]}; llm_calls := []; uuids_drawn := 0 |}.

End Spec2.

(** * Properties *)

Import Parser Spec.

(** ** Strings *)

Section StringFacts.

Lemma rstrip_cons_keep (c : char) (s : str) :
  isspace c = false -> rstrip (c :: s) = c :: rstrip s.
Proof.
  intros Hc. simpl. destruct (rstrip s); [ by rewrite Hc | done ].
Qed.

Lemma lstrip_cons_keep (c : char) (s : str) :
  isspace c = false -> lstrip (c :: s) = c :: s.
Proof. intros Hc. simpl. by rewrite Hc. Qed.

Lemma strip_cons_keep (c : char) (s : str) :
  isspace c = false -> strip (c :: s) = c :: rstrip s.
Proof.
  intros Hc. unfold strip. rewrite lstrip_cons_keep by done.
  by apply rstrip_cons_keep.
Qed.

(** A stripped text that is not empty starts with a character that is not
    white space. *)
Lemma lstrip_head (s : str) (c : char) (r : str) :
  lstrip s = c :: r -> isspace c = false.
Proof.
  induction s as [|x s IH]; simpl; [ done | ].
  destruct (isspace x) eqn:Hx; [ done | ].
  intros [= -> _]. done.
Qed.

Lemma truthy_true {A} (l : list A) : truthy l = true <-> l <> [].
Proof. destruct l; simpl; split; congruence. Qed.

Lemma join_nonempty (sep : str) (l : list str) :
  l <> [] -> Forall (fun x => x <> []) l -> join sep l <> [].
Proof.
  destruct l as [|x l]; [ done | ].
  intros _ Hall. inversion Hall as [|? ? Hx _]; subst.
  destruct x as [|c x]; [ done | ].
  simpl. destruct l; simpl; done.
Qed.

(** The decimal rendering of a number consists of digits. *)
Lemma of_uint_digits (d : Decimal.uint) :
  Forall (fun c => (48 <= c <= 57)%N)
         (lit (DecimalString.NilEmpty.string_of_uint d)).
Proof.
  induction d; simpl; try constructor; try done; unfold lit; simpl;
    constructor; (lia || apply IHd).
Qed.

Lemma of_nat_digits (n : nat) :
  Forall (fun c => (48 <= c <= 57)%N) (of_nat n).
Proof. apply of_uint_digits. Qed.

Lemma of_nat_no_newline (n : nat) : NL ∉ of_nat n.
Proof.
  intros Hin. pose proof (of_nat_digits n) as Hd.
  rewrite Forall_forall in Hd. specialize (Hd NL Hin).
  unfold NL in Hd. lia.
Qed.

End StringFacts.

(** ** parse_document: dispatch on the extension *)

Section ParseDocument.

Lemma rpartition_none (c : char) (s : str) :
  c ∉ s -> rpartition c s = None.
Proof.
  induction s as [|x s IH]; simpl; [ done | ].
  intros Hs. rewrite IH by set_solver.
  destruct (N.eqb_spec x c); [ set_solver | done ].
Qed.

Lemma rpartition_last (c : char) (a b : str) :
  c ∉ b -> rpartition c (a ++ c :: b) = Some (a, b).
Proof.
  intros Hb. induction a as [|x a IH]; simpl.
  - rewrite rpartition_none by done. by rewrite N.eqb_refl.
  - by rewrite IH.
Qed.

(** The extension is the text after the last dot, in lower case. *)
Lemma extension_after_last_dot (stem ext : str) :
  DOT ∉ ext -> extension (stem ++ DOT :: ext) = lower ext.
Proof.
  intros H. unfold extension, rsplit1. by rewrite rpartition_last.
Qed.

(** Without a dot, it is the whole path in lower case. *)
Lemma extension_no_dot (path : str) :
  DOT ∉ path -> extension path = lower path.
Proof.
  intros H. unfold extension, rsplit1. by rewrite rpartition_none.
Qed.

Lemma parse_pdf_not_unsupported fs path ext :
  parse_pdf fs path <> Err (UnsupportedFileType ext).
Proof. unfold parse_pdf. by destruct (pdfplumber_open fs path). Qed.

Lemma parse_docx_not_unsupported fs path ext :
  parse_docx fs path <> Err (UnsupportedFileType ext).
Proof. unfold parse_docx. by destruct (docx_Document fs path). Qed.

Lemma parse_txt_not_unsupported fs path ext :
  parse_txt fs path <> Err (UnsupportedFileType ext).
Proof. unfold parse_txt. by destruct (read_utf8 fs path). Qed.

End ParseDocument.

(** C9.  [parse_document] looks at the text after the last dot of the path
    (the whole path when it has no dot), lower-cased.  When that is none of
    pdf, docx, txt it fails with the unsupported-file-type error naming it;
    when it is one of the three, the result is that of the matching parser,
    which never is that error. *)
Theorem parse_document_by_extension (fs : FileSystem) (path : str) :
  (forall stem ext,
      path = stem ++ DOT :: ext -> DOT ∉ ext -> extension path = lower ext)
  /\ (DOT ∉ path -> extension path = lower path)
  /\ (extension path <> py "pdf" -> extension path <> py "docx" ->
      extension path <> py "txt" ->
      parse_document fs path = Err (UnsupportedFileType (extension path)))
  /\ (extension path = py "pdf" -> parse_document fs path = parse_pdf fs path)
  /\ (extension path = py "docx" -> parse_document fs path = parse_docx fs path)
  /\ (extension path = py "txt" -> parse_document fs path = parse_txt fs path)
  /\ (extension path = py "pdf" \/ extension path = py "docx"
      \/ extension path = py "txt" ->
      forall ext, parse_document fs path <> Err (UnsupportedFileType ext)).
Proof.
  repeat split.
  - intros stem ext -> Hdot. by apply extension_after_last_dot.
  - apply extension_no_dot.
  - intros H1 H2 H3. unfold parse_document.
    rewrite !bool_decide_eq_false_2 by done. done.
  - intros H. unfold parse_document. by rewrite bool_decide_eq_true_2.
  - intros H. unfold parse_document.
    rewrite bool_decide_eq_false_2 by (rewrite H; done).
    by rewrite bool_decide_eq_true_2.
  - intros H. unfold parse_document.
    rewrite !bool_decide_eq_false_2 by (rewrite H; done).
    by rewrite bool_decide_eq_true_2.
  - intros H ext. unfold parse_document.
    repeat case_bool_decide.
    + apply parse_pdf_not_unsupported.
    + apply parse_docx_not_unsupported.
    + apply parse_txt_not_unsupported.
    + destruct H as [?|[?|?]]; congruence.
Qed.

(** Instances: a PDF whose name has several dots, a Markdown file, a name
    ending in ".Txt". *)
Lemma parse_document_by_extension_witness :
  parse_document Sample.files (py "uploads/rate.con.PDF")
    = parse_pdf Sample.files (py "uploads/rate.con.PDF")
  /\ parse_document Sample.files (py "notes.md")
     = Err (UnsupportedFileType (py "md"))
  /\ extension (py "archive.tar.Txt") = py "txt".
Proof.
  split; [ | split ].
  - apply (parse_document_by_extension Sample.files
             (py "uploads/rate.con.PDF")). reflexivity.
  - apply (parse_document_by_extension Sample.files (py "notes.md"));
      vm_compute; discriminate.
  - apply (proj1 (parse_document_by_extension Sample.files
                    (py "archive.tar.Txt")) (py "archive.tar") (py "Txt")).
    + reflexivity.
    + apply (bool_decide_unpack _). vm_compute. exact I.
Defined.

(** ** The parsers: every section is a label line and content *)

Section Labels.

Ltac no_newline :=
  repeat (apply not_elem_of_app; split);
  first [ apply of_nat_no_newline
        | apply (bool_decide_unpack _); vm_compute; exact I ].

Lemma page_table_label_line n : NL ∉ page_table_label n.
Proof. unfold page_table_label. no_newline. Qed.

Lemma page_text_label_line n : NL ∉ page_text_label n.
Proof. unfold page_text_label. no_newline. Qed.

Lemma table_label_line i : NL ∉ table_label i.
Proof. unfold table_label. no_newline. Qed.

Lemma text_label_line : NL ∉ text_label.
Proof. unfold text_label. no_newline. Qed.

Lemma strip_truthy_nonempty (s : str) : truthy (strip s) = true -> s <> [].
Proof. by destruct s. Qed.

Lemma labelled_intro (is_label : str -> Prop) (label content : str) :
  is_label label -> NL ∉ label -> content <> [] ->
  labelled is_label (label ++ [NL] ++ content).
Proof. intros. by exists label, content. Qed.

Lemma parse_pdf_page_labelled (n : nat) (page : pdf_page) :
  Forall (labelled pdf_label) (parse_pdf_page n page).
Proof.
  unfold parse_pdf_page. apply Forall_app. split.
  - destruct (truthy (extract_tables page)); [ | constructor ].
    apply Forall_flat_map, Forall_forall. intros table _.
    destruct (truthy (strip (_table_to_text table))) eqn:Ht; [ | constructor ].
    constructor; [ | constructor ].
    apply labelled_intro.
    + exists n. by left.
    + apply page_table_label_line.
    + by apply strip_truthy_nonempty.
  - destruct (truthy (if truthy (extract_tables page)
                      then find_tables page else [])).
    + match goal with
      | |- context [truthy ?parts] =>
          destruct (truthy parts) eqn:Hparts; [ | constructor ]
      end.
      constructor; [ | constructor ].
      apply labelled_intro.
      * exists n. by right.
      * apply page_text_label_line.
      * apply join_nonempty; [ by apply truthy_true | ].
        apply Forall_flat_map, Forall_forall. intros line _. simpl.
        destruct (truthy (strip line)) eqn:Ht; simpl; [ | constructor ].
        case_bool_decide; constructor; [ | constructor ].
        by apply truthy_true.
    + destruct (extract_text page) as [text|]; [ | constructor ].
      destruct (truthy text && truthy (strip text)) eqn:Ht; [ | constructor ].
      apply andb_true_iff in Ht as [_ Ht].
      constructor; [ | constructor ].
      apply labelled_intro.
      * exists n. by right.
      * apply page_text_label_line.
      * by apply truthy_true.
Qed.

Lemma parse_pdf_pages_labelled (pages : list pdf_page) :
  Forall (labelled pdf_label) (parse_pdf_pages pages).
Proof.
  unfold parse_pdf_pages. apply Forall_flat_map, Forall_forall.
  intros [n page] _. apply parse_pdf_page_labelled.
Qed.

Lemma docx_table_sections_labelled tbls :
  Forall (labelled docx_label) (docx_table_sections tbls).
Proof.
  unfold docx_table_sections. apply Forall_flat_map, Forall_forall.
  intros [i table] _.
  match goal with
  | |- context [truthy (strip ?t)] =>
      destruct (truthy (strip t)) eqn:Ht; [ | constructor ]
  end.
  constructor; [ | constructor ].
  apply labelled_intro.
  - left. by exists i.
  - apply table_label_line.
  - by apply strip_truthy_nonempty.
Qed.

Lemma text_block_labelled (block : list str) :
  block <> [] -> Forall (fun x => x <> []) block ->
  labelled docx_label (text_label ++ [NL] ++ join [NL] block).
Proof.
  intros Hne Hall. apply labelled_intro.
  - by right.
  - apply text_label_line.
  - by apply join_nonempty.
Qed.

(** The paragraph loop, for every content of its accumulator. *)
Lemma docx_text_sections_labelled (paras block : list str) :
  Forall (fun x => x <> []) block ->
  Forall (labelled docx_label) (docx_text_sections paras block).
Proof.
  revert block. induction paras as [|para rest IH]; intros block Hblock.
  - simpl. destruct (truthy block) eqn:Hb; [ | constructor ].
    constructor; [ | constructor ].
    apply text_block_labelled; [ by apply truthy_true | done ].
  - simpl. destruct (truthy (strip para)) eqn:Hp.
    + apply IH. apply Forall_app. split; [ done | ].
      constructor; [ by apply truthy_true | constructor ].
    + destruct (truthy block) eqn:Hb.
      * constructor; [ | by apply IH ].
        apply text_block_labelled; [ by apply truthy_true | done ].
      * by apply IH.
Qed.

Lemma parse_docx_document_labelled doc :
  Forall (labelled docx_label) (parse_docx_document doc).
Proof.
  unfold parse_docx_document. apply Forall_app. split.
  - apply docx_table_sections_labelled.
  - by apply docx_text_sections_labelled.
Qed.

Lemma parse_txt_content_labelled content :
  Forall (labelled txt_label) (parse_txt_content content).
Proof.
  unfold parse_txt_content. apply Forall_flat_map, Forall_forall.
  intros block _. cbv beta zeta.
  destruct (truthy (strip block)) eqn:Hb; [ | constructor ].
  constructor; [ | constructor ].
  apply labelled_intro; [ done | apply text_label_line | by apply truthy_true ].
Qed.

End Labels.

(** C10.  Every section [parse_pdf], [parse_docx] or [parse_txt] returns is a
    string made of a bracketed label ("[Page N – Table]" or "[Page N – Text]"
    for a PDF, "[Table i]" or "[Text]" for a DOCX, "[Text]" for a TXT), a
    newline, and content that is not empty; the label is part of the section
    string itself. *)
Theorem sections_carry_their_label (fs : FileSystem) (path : str)
    (sections : list str) :
  (parse_pdf fs path = Ok sections -> Forall (labelled pdf_label) sections)
  /\ (parse_docx fs path = Ok sections -> Forall (labelled docx_label) sections)
  /\ (parse_txt fs path = Ok sections -> Forall (labelled txt_label) sections)
  /\ (parse_pdf fs path = Ok sections \/ parse_docx fs path = Ok sections
      \/ parse_txt fs path = Ok sections ->
      Forall (fun s => s <> []) sections).
Proof.
  assert (Hne : forall P (l : list str),
             Forall (labelled P) l -> Forall (fun s => s <> []) l).
  { intros P l Hl. eapply Forall_impl; [ exact Hl | ].
    intros s (label & content & -> & _ & _ & Hc) Happ.
    apply app_eq_nil in Happ as [_ Happ]. done. }
  assert (Hpdf : parse_pdf fs path = Ok sections ->
                 Forall (labelled pdf_label) sections).
  { unfold parse_pdf. destruct (pdfplumber_open fs path); [ done | ].
    intros [= <-]. apply parse_pdf_pages_labelled. }
  assert (Hdocx : parse_docx fs path = Ok sections ->
                  Forall (labelled docx_label) sections).
  { unfold parse_docx. destruct (docx_Document fs path); [ done | ].
    intros [= <-]. apply parse_docx_document_labelled. }
  assert (Htxt : parse_txt fs path = Ok sections ->
                 Forall (labelled txt_label) sections).
  { unfold parse_txt. destruct (read_utf8 fs path); [ done | ].
    intros [= <-]. apply parse_txt_content_labelled. }
  repeat split; try done.
  intros [H|[H|H]]; eapply Hne; eauto.
Qed.

(** Instances: the sections of the three sample files. *)
Lemma sections_carry_their_label_witness :
  Forall (labelled txt_label)
    [py "[Text]" ++ [NL] ++ py "Shipper: ACME";
     py "[Text]" ++ [NL] ++ py "Rate: 1200 USD"]
  /\ Forall (labelled pdf_label)
       [py "[Page 1 " ++ [EN_DASH] ++ py " Table]" ++ [NL] ++ py "Rate | 1200";
        py "[Page 1 " ++ [EN_DASH] ++ py " Text]" ++ [NL] ++ py "Carrier: ACME"]
  /\ Forall (labelled docx_label)
       [py "[Table 1]" ++ [NL] ++ py "Rate | 1200";
        py "[Text]" ++ [NL] ++ py "Pickup" ++ [NL] ++ py "at noon";
        py "[Text]" ++ [NL] ++ py "Deliver"].
Proof.
  split; [ | split ].
  - apply (sections_carry_their_label Sample.files (py "notes.txt")).
    reflexivity.
  - apply (sections_carry_their_label Sample.files (py "rate.pdf")).
    reflexivity.
  - apply (sections_carry_their_label Sample.files (py "rate.docx")).
    reflexivity.
Defined.

(** ** store_chunks: chunk indices *)

Section StoreChunks.
Variable sv : Services.

(** [enumerate] numbers from zero, whatever the loop body projects. *)
Lemma imap_projection {A B C} (h : nat -> A -> B) (proj : B -> C)
    (g : nat -> C) (l : list A) :
  (forall i x, proj (h i x) = g i) ->
  map proj (imap h l) = map g (seq 0 (length l)).
Proof.
  revert h g. induction l as [|x l IH]; intros h g Hproj; [ done | ].
  simpl. f_equal; [ apply Hproj | ].
  rewrite <- seq_shift, map_map. apply IH. intros i y. apply Hproj.
Qed.

Lemma imap_preserves {A B C} (h : nat -> A -> B) (proj : B -> C)
    (proj' : A -> C) (l : list A) :
  (forall i x, proj (h i x) = proj' x) ->
  map proj (imap h l) = map proj' l.
Proof.
  revert h. induction l as [|x l IH]; intros h Hproj; [ done | ].
  simpl. f_equal; [ apply Hproj | ]. apply IH. intros i y. apply Hproj.
Qed.

Lemma indexed_documents_indices id sections fname :
  map (fun d => chunk_index (metadata d))
      (indexed_documents sv id sections fname)
  = map (fun i => Some (Z.of_nat i))
        (seq 0 (length (indexed_documents sv id sections fname))).
Proof.
  unfold indexed_documents. rewrite length_imap.
  by apply imap_projection.
Qed.

Lemma split_documents_contents (docs : list Document) :
  map page_content (split_documents sv docs)
  = flat_map (fun d => split_text sv (page_content d)) docs.
Proof.
  unfold split_documents. induction docs as [|d docs IH]; [ done | ].
  simpl. rewrite map_app, IH, map_map. simpl. by rewrite map_id.
Qed.

Lemma indexed_documents_contents id sections fname :
  map page_content (indexed_documents sv id sections fname)
  = flat_map (split_text sv) sections.
Proof.
  unfold indexed_documents.
  rewrite (imap_preserves _ page_content page_content) by done.
  rewrite split_documents_contents.
  induction sections as [|s sections IH]; [ done | ].
  simpl. by rewrite IH.
Qed.

Lemma store_chunks_run sections fname w :
  let id := take 12 (uuid4_hex sv (uuids_drawn w)) in
  let docs := indexed_documents sv id sections fname in
  store_chunks sv sections fname w
  = (Ok (id, length docs),
     {| collections :=
          <[collection_name id := rows (collection_name id) w ++ docs]>
            (collections w);
        llm_calls := llm_calls w;
        uuids_drawn := S (uuids_drawn w) |}).
Proof. reflexivity. Qed.

End StoreChunks.


(** ** Sorting by a key *)

Section SortFacts.
Context {A : Type} (key : A -> Z).

Let R (a b : A) : Prop := (key a <= key b)%Z.

Lemma insert_by_perm (x : A) (l : list A) :
  insert_by Z.leb key x l ≡ₚ x :: l.
Proof.
  induction l as [|y l IH]; simpl; [ done | ].
  destruct (Z.leb (key x) (key y)); [ done | ].
  rewrite IH. apply perm_swap.
Qed.

Lemma sort_by_perm (l : list A) : sort_by Z.leb key l ≡ₚ l.
Proof.
  induction l as [|x l IH]; simpl; [ done | ].
  rewrite insert_by_perm. by rewrite IH.
Qed.

Lemma insert_by_sorted (x : A) (l : list A) :
  StronglySorted R l -> StronglySorted R (insert_by Z.leb key x l).
Proof.
  induction 1 as [|y l Hl IH Hy]; simpl.
  - repeat constructor.
  - destruct (Z.leb_spec (key x) (key y)) as [Hxy|Hxy].
    + constructor; [ by constructor | ].
      constructor; [ done | ].
      eapply Forall_impl; [ exact Hy | ]. unfold R. intros; lia.
    + constructor; [ done | ].
      rewrite insert_by_perm. constructor; [ unfold R; lia | done ].
Qed.

Lemma sort_by_sorted (l : list A) : StronglySorted R (sort_by Z.leb key l).
Proof.
  induction l as [|x l IH]; simpl; [ constructor | ].
  by apply insert_by_sorted.
Qed.

End SortFacts.

Lemma insert_by_map {A B K} (leb : K -> K -> bool) (key : B -> K)
    (f : A -> B) (x : A) (l : list A) :
  insert_by leb key (f x) (map f l)
  = map f (insert_by leb (fun a => key (f a)) x l).
Proof.
  induction l as [|y l IH]; simpl; [ done | ].
  destruct (leb (key (f x)) (key (f y))); simpl; [ done | ].
  by rewrite IH.
Qed.

Lemma sort_by_map {A B K} (leb : K -> K -> bool) (key : B -> K)
    (f : A -> B) (l : list A) :
  sort_by leb key (map f l) = map f (sort_by leb (fun a => key (f a)) l).
Proof.
  induction l as [|x l IH]; simpl; [ done | ].
  by rewrite IH, insert_by_map.
Qed.

(** ** The Chroma constructor and the worlds it leaves *)

Section Opened.

Lemma Chroma_run name w : Chroma name w = (Ok name, opened name w).
Proof. unfold opened, Chroma. by destruct (collections w !! name). Qed.

Lemma opened_present name w docs :
  collections w !! name = Some docs -> opened name w = w.
Proof. unfold opened, Chroma. by intros ->. Qed.

Lemma opened_absent name w :
  collections w !! name = None ->
  collections (opened name w) = <[name := []]> (collections w).
Proof. unfold opened, Chroma. by intros ->. Qed.

Lemma rows_opened name name' w : rows name' (opened name w) = rows name' w.
Proof.
  unfold opened, Chroma, rows.
  destruct (collections w !! name) eqn:Hn; [ done | ]. simpl.
  destruct (decide (name = name')) as [<-|Hne].
  - by rewrite lookup_insert_eq, Hn.
  - by rewrite lookup_insert_ne.
Qed.

Lemma llm_calls_opened name w : llm_calls (opened name w) = llm_calls w.
Proof. unfold opened, Chroma. by destruct (collections w !! name). Qed.

Lemma opened_opened name w : opened name (opened name w) = opened name w.
Proof.
  destruct (collections w !! name) eqn:Hn.
  - by rewrite !(opened_present _ _ _ Hn).
  - apply (opened_present _ _ []).
    rewrite opened_absent by done. apply lookup_insert_eq.
Qed.

Lemma indexed_opened name w : indexed w -> indexed (opened name w).
Proof.
  intros Hw name' docs. destruct (collections w !! name) eqn:Hn.
  - rewrite (opened_present _ _ _ Hn). apply Hw.
  - rewrite opened_absent by done.
    destruct (decide (name = name')) as [<-|Hne].
    + rewrite lookup_insert_eq. intros [= <-]. constructor.
    + rewrite lookup_insert_ne by done. apply Hw.
Qed.

Lemma indexed_logged call w : indexed w -> indexed (logged call w).
Proof. intros Hw. exact Hw. Qed.

End Opened.

(** ** What the service functions compute *)

Section Runs.
Variable sv : Services.

Lemma retrieve_run id query w :
  retrieve sv id query 3 w
  = (Ok (map chunk_of (search_results sv id query w)),
     opened (collection_name id) w).
Proof.
  unfold retrieve, _get_vectorstore, mbind, M_bind, bind.
  rewrite Chroma_run. unfold similarity_search_with_score, ret.
  rewrite rows_opened. unfold search_results. f_equal. f_equal.
  apply map_ext. by intros [doc distance].
Qed.

Lemma sort_keys_indexed (docs : list Document) :
  Forall (fun d => is_Some (chunk_index (metadata d))) docs ->
  sort_keys (map (fun d => (page_content d, metadata d)) docs)
  = Ok (map (fun d => (page_content d, index_of d)) docs).
Proof.
  induction 1 as [|d docs [i Hi] _ IH]; [ done | ].
  simpl. rewrite Hi, IH. unfold index_of. by rewrite Hi.
Qed.

(** The text [get_full_text] joins: the rows in ascending chunk_index. *)
Lemma get_full_text_run id w :
  Forall (fun d => is_Some (chunk_index (metadata d)))
         (rows (collection_name id) w) ->
  get_full_text id w
  = (Ok (join [NL; NL]
           (map page_content
              (sort_by Z.leb index_of (rows (collection_name id) w)))),
     opened (collection_name id) w).
Proof.
  intros Hrows.
  unfold get_full_text, _get_vectorstore, mbind, M_bind, bind.
  rewrite Chroma_run. unfold get. rewrite rows_opened.
  rewrite (sort_keys_indexed _ Hrows). unfold ret. f_equal. f_equal. f_equal.
  rewrite (sort_by_map Z.leb snd (fun d => (page_content d, index_of d))).
  by rewrite map_map.
Qed.

Lemma indexed_rows name w :
  indexed w ->
  Forall (fun d => is_Some (chunk_index (metadata d))) (rows name w).
Proof.
  intros Hw. unfold rows.
  destruct (collections w !! name) eqn:Hn; [ by eapply Hw | constructor ].
Qed.

Lemma ask_question_run query chunks full_text w :
  Llm.ask_question sv query chunks full_text w
  = (Ok {| Llm.answer :=
             strip (ask_llm sv
                      (join ([NL; NL] ++ py "---" ++ [NL; NL])
                            (map text chunks)) full_text query);
           Llm.source_text :=
             match map text chunks with t :: _ => t | [] => [] end;
           Llm.confidence_score :=
             if truthy (map score chunks)
             then round4 (sum (map score chunks)
                          / inject_Z (Z.of_nat (length (map score chunks))))
             else 0%Q |},
     logged (AskCall (join ([NL; NL] ++ py "---" ++ [NL; NL])
                           (map text chunks)) full_text query) w).
Proof. reflexivity. Qed.

Lemma extract_structured_run json_loads full_text w :
  Llm.extract_structured sv json_loads full_text w
  = (Ok match json_loads
                (Llm.strip_fences (strip (extract_llm sv full_text))) with
        | Some parsed => parsed
        | None => Llm.parse_failure
                    (Llm.strip_fences (strip (extract_llm sv full_text)))
        end,
     logged (ExtractCall full_text) w).
Proof.
  unfold Llm.extract_structured, mbind, M_bind, bind,
    Llm.invoke_extract_chain, logged.
  by destruct (json_loads _).
Qed.

(** The two branches of [ask]. *)
Lemma ask_run id question w :
  let w1 := opened (collection_name id) w in
  let chunks := map chunk_of (search_results sv id question w) in
  Documents.ask sv id question w
  = if Qltb (Documents.best_score_of chunks) Documents.SIMILARITY_THRESHOLD
    then (Ok (not_found_response (round4 (Documents.best_score_of chunks))),
          w1)
    else match get_full_text id w1 with
         | (Ok full_text, w2) =>
             match Llm.ask_question sv question chunks full_text w2 with
             | (Ok result, w3) => (Ok (Documents.AskResponse_of result), w3)
             | (Err e, w3) => (Err e, w3)
             end
         | (Err e, w2) => (Err e, w2)
         end.
Proof.
  intros w1 chunks.
  unfold Documents.ask, mbind, M_bind, bind, try_except.
  rewrite retrieve_run. fold w1. fold chunks.
  destruct (Qltb _ _); [ done | ].
  destruct (get_full_text id w1) as [[full_text|e] w2]; [ | done ].
  by rewrite ask_question_run.
Qed.

Lemma ask_world_indexed id question w :
  indexed w -> indexed (snd (Documents.ask sv id question w)).
Proof.
  intros Hw. rewrite ask_run.
  destruct (Qltb _ _); [ by apply indexed_opened | ].
  rewrite get_full_text_run by (apply indexed_rows; by apply indexed_opened).
  rewrite ask_question_run. simpl.
  apply indexed_logged. by do 2 apply indexed_opened.
Qed.

Lemma extract_world_indexed json_loads id w :
  indexed w -> indexed (snd (Documents.extract sv json_loads id w)).
Proof.
  intros Hw.
  unfold Documents.extract, mbind, M_bind, bind, try_except.
  rewrite get_full_text_run by by apply indexed_rows.
  rewrite extract_structured_run. simpl.
  apply indexed_logged. by apply indexed_opened.
Qed.

Lemma indexed_documents_indexed id sections fname :
  Forall (fun d => is_Some (chunk_index (metadata d)))
         (indexed_documents sv id sections fname).
Proof.
  unfold indexed_documents. apply Forall_forall. intros d Hd.
  apply elem_of_lookup_imap in Hd as (i & x & -> & _). by eexists.
Qed.

Lemma store_chunks_world_indexed sections fname w :
  indexed w -> indexed (snd (store_chunks sv sections fname w)).
Proof.
  intros Hw. rewrite store_chunks_run. cbn [snd]. intros name docs.
  cbn [collections].
  match goal with
  | |- context [<[?n := _]> _] =>
      destruct (decide (n = name)) as [<-|Hne]
  end.
  - rewrite lookup_insert_eq. intros [= <-]. apply Forall_app. split.
    + by apply indexed_rows.
    + apply indexed_documents_indexed.
  - rewrite lookup_insert_ne by done. apply Hw.
Qed.

Lemma reachable_indexed json_loads w :
  Service.reachable sv json_loads w -> indexed w.
Proof.
  induction 1 as [|w r _ IH].
  - intros name docs. unfold empty_world. simpl.
    by rewrite lookup_empty.
  - destruct r; simpl.
    + by apply store_chunks_world_indexed.
    + by apply ask_world_indexed.
    + by apply extract_world_indexed.
Qed.

End Runs.

(** ** get_full_text *)

Lemma StronglySorted_refine {A} (R R' : A -> A -> Prop) (P : A -> Prop)
    (l : list A) :
  (forall a b, P a -> P b -> R a b -> R' a b) ->
  Forall P l -> StronglySorted R l -> StronglySorted R' l.
Proof.
  intros HR HP Hs. induction Hs as [|x l _ IH Hx]; [ constructor | ].
  apply Forall_cons in HP as [Hpx HP].
  constructor; [ by apply IH | ].
  rewrite Forall_forall in Hx, HP. apply Forall_forall.
  intros y Hy. apply HR; auto.
Qed.

(** C8.  For a stored document, [get_full_text] returns the texts of the
    stored chunks, arranged in ascending order of their chunk_index and
    joined with two newlines; it leaves the store as it was, so a second
    call returns the same. *)
Theorem get_full_text_sorted_join (sv : Services)
    (json_loads : str -> option Llm.json) (w : World) (id : str)
    (docs : list Document) :
  Service.reachable sv json_loads w ->
  collections w !! collection_name id = Some docs ->
  exists sorted,
    sorted ≡ₚ docs
    /\ StronglySorted index_le sorted
    /\ get_full_text id w = (Ok (join [NL; NL] (map page_content sorted)), w)
    /\ get_full_text id (snd (get_full_text id w)) = get_full_text id w.
Proof.
  intros Hreach Hdocs.
  pose proof (reachable_indexed _ _ _ Hreach) as Hw.
  assert (Hrows : rows (collection_name id) w = docs)
    by (unfold rows; by rewrite Hdocs).
  assert (Hrun : get_full_text id w
                 = (Ok (join [NL; NL]
                          (map page_content (sort_by Z.leb index_of docs))), w)).
  { rewrite get_full_text_run by by apply indexed_rows.
    by rewrite Hrows, (opened_present _ _ _ Hdocs). }
  exists (sort_by Z.leb index_of docs). split; [ | split; [ | split ] ].
  - apply sort_by_perm.
  - apply (StronglySorted_refine
             (fun a b => (index_of a <= index_of b)%Z) index_le
             (fun d => is_Some (chunk_index (metadata d)))).
    + intros a b [i Hi] [j Hj]. unfold index_le, index_of.
      by rewrite Hi, Hj.
    + rewrite sort_by_perm. by eapply Hw.
    + apply sort_by_sorted.
  - exact Hrun.
  - by rewrite Hrun.
Qed.

(** Instance: the store after one upload. *)
Lemma get_full_text_sorted_join_witness :
  exists sorted,
    sorted ≡ₚ indexed_documents Sample.demo Sample.uploaded_id
                [py "Rate: 1200"] (py "rate.txt")
    /\ StronglySorted index_le sorted
    /\ get_full_text Sample.uploaded_id (Sample.one_upload Sample.demo)
       = (Ok (join [NL; NL] (map page_content sorted)),
          Sample.one_upload Sample.demo)
    /\ get_full_text Sample.uploaded_id
         (snd (get_full_text Sample.uploaded_id
                 (Sample.one_upload Sample.demo)))
       = get_full_text Sample.uploaded_id (Sample.one_upload Sample.demo).
Proof.
  apply (get_full_text_sorted_join Sample.demo JsonDecoder.json_loads
           (Sample.one_upload Sample.demo) Sample.uploaded_id).
  - apply Service.reachable_serve, Service.reachable_empty.
  - unfold Sample.one_upload, Service.serve. rewrite store_chunks_run.
    cbn [snd collections]. apply lookup_insert_eq.
Defined.

(** The text that instance reconstructs. *)
Example get_full_text_sample :
  fst (get_full_text Sample.uploaded_id (Sample.one_upload Sample.demo))
  = Ok (py "Rat" ++ [NL; NL] ++ py "e: " ++ [NL; NL] ++ py "120"
        ++ [NL; NL] ++ py "0").
Proof. vm_compute. reflexivity. Qed.

(** ** Scores: comparison, rounding, maximum *)

Section ScoreFacts.
Local Open Scope Q_scope.

Lemma Qltb_lt (x y : Q) : Qltb x y = true <-> x < y.
Proof.
  unfold Qltb. rewrite negb_true_iff, <- not_true_iff_false, Qle_bool_iff.
  split; [ apply Qnot_le_lt | apply Qlt_not_le ].
Qed.

Lemma Qltb_ge (x y : Q) : Qltb x y = false <-> y <= x.
Proof.
  unfold Qltb. rewrite negb_false_iff. apply Qle_bool_iff.
Qed.

Lemma round_half_even_floor (x : Q) : (Qfloor x <= round_half_even x)%Z.
Proof.
  unfold round_half_even.
  destruct (x - inject_Z (Qfloor x) ?= 1 # 2); [ | lia | lia ].
  destruct (Z.even (Qfloor x)); lia.
Qed.

(** Rounding to four decimals does not take a score below the threshold
    it has reached. *)
Lemma round4_keeps_threshold (x : Q) : 3 # 10 <= x -> 3 # 10 <= round4 x.
Proof.
  intros Hx. unfold round4. rewrite Qred_correct.
  assert (Hfloor : (3000 <= Qfloor (x * 10000))%Z).
  { rewrite <- (Qfloor_Z 3000). apply Qfloor_resp_le.
    destruct x as [n d]. unfold Qle in *. simpl in *. lia. }
  pose proof (round_half_even_floor (x * 10000)) as Hr.
  unfold Qle. simpl. lia.
Qed.

Lemma max_from_ge (first : Q) (rest : list Q) :
  first <= max_from first rest
  /\ Forall (fun x => x <= max_from first rest) rest.
Proof.
  unfold max_from. revert first.
  induction rest as [|x rest IH]; intros first; simpl.
  - split; [ apply Qle_refl | constructor ].
  - destruct (IH (if Qltb first x then x else first)) as [Hm Hrest].
    assert (Hstep : first <= (if Qltb first x then x else first)
                    /\ x <= (if Qltb first x then x else first)).
    { destruct (Qltb first x) eqn:Hlt.
      - apply Qltb_lt in Hlt. split; [ by apply Qlt_le_weak | apply Qle_refl ].
      - apply Qltb_ge in Hlt. split; [ apply Qle_refl | done ]. }
    destruct Hstep as [H1 H2]. split; [ | constructor; [ | done ] ].
    + eapply Qle_trans; eauto.
    + eapply Qle_trans; eauto.
Qed.

Lemma max_from_in (first : Q) (rest : list Q) :
  max_from first rest ∈ first :: rest.
Proof.
  unfold max_from. revert first.
  induction rest as [|x rest IH]; intros first; simpl; [ set_solver | ].
  specialize (IH (if Qltb first x then x else first)).
  destruct (Qltb first x).
  - right. exact IH.
  - apply elem_of_cons in IH as [->|IH]; [ left | right; right; exact IH ].
Qed.

(** When the best unrounded score reaches the threshold, so does the best
    rounded score. *)
Lemma best_of_rounded_threshold (scores : list Q) :
  3 # 10 <= best_of scores -> 3 # 10 <= best_of (map round4 scores).
Proof.
  destruct scores as [|s rest]; [ done | ].
  intros Hbest. cbn [best_of map] in *.
  pose proof (max_from_in s rest) as Hin.
  assert (Hr : round4 (max_from s rest) ∈ round4 s :: map round4 rest).
  { change (round4 s :: map round4 rest) with (map round4 (s :: rest)).
    by apply list_elem_of_fmap_2. }
  destruct (max_from_ge (round4 s) (map round4 rest)) as [Hf Hall].
  apply round4_keeps_threshold in Hbest.
  apply elem_of_cons in Hr as [Heq|Hr].
  - apply (Qle_trans _ (round4 s)); [ by rewrite <- Heq | exact Hf ].
  - rewrite Forall_forall in Hall.
    apply (Qle_trans _ (round4 (max_from s rest))); [ done | by apply Hall ].
Qed.

End ScoreFacts.

(** ** ask: the two branches *)

Section AskFacts.
Variable sv : Services.
Local Open Scope Q_scope.

Lemma reported_scores id query w :
  map score (map chunk_of (search_results sv id query w))
  = map round4 (unrounded_scores sv id query w).
Proof.
  unfold unrounded_scores. rewrite !map_map. apply map_ext.
  by intros [doc distance].
Qed.

Lemma search_results_length id query w :
  (length (search_results sv id query w) <= 3)%nat.
Proof. unfold search_results. rewrite length_take. lia. Qed.

Lemma ask_short_branch id query w :
  Qltb (best_of (map round4 (unrounded_scores sv id query w)))
       Documents.SIMILARITY_THRESHOLD = true ->
  Documents.ask sv id query w
  = (Ok (not_found_response
           (round4 (best_of (map round4 (unrounded_scores sv id query w))))),
     opened (collection_name id) w).
Proof.
  intros Hlt. rewrite ask_run. unfold Documents.best_score_of.
  rewrite reported_scores. fold (best_of (map round4 (unrounded_scores sv id query w))).
  by rewrite Hlt.
Qed.

Lemma ask_llm_branch id query w :
  indexed w ->
  Qltb (best_of (map round4 (unrounded_scores sv id query w)))
       Documents.SIMILARITY_THRESHOLD = false ->
  exists result,
    Llm.ask_question sv query
      (map chunk_of (search_results sv id query w))
      (join [NL; NL]
         (map page_content
            (sort_by Z.leb index_of (rows (collection_name id) w))))
      (opened (collection_name id) w)
    = (Ok result, snd (Documents.ask sv id query w))
    /\ Documents.ask sv id query w
       = (Ok (Documents.AskResponse_of result),
          snd (Documents.ask sv id query w)).
Proof.
  intros Hw Hge. rewrite ask_run. unfold Documents.best_score_of.
  rewrite reported_scores.
  fold (best_of (map round4 (unrounded_scores sv id query w))).
  rewrite Hge.
  rewrite get_full_text_run by (apply indexed_rows; by apply indexed_opened).
  rewrite rows_opened, opened_opened.
  rewrite ask_question_run. eexists. split; reflexivity.
Qed.

Lemma short_circuits_intro id query w :
  best_of (map round4 (unrounded_scores sv id query w)) < 3 # 10 ->
  short_circuits sv id query w.
Proof.
  intros Hlt. apply Qltb_lt in Hlt. unfold short_circuits.
  rewrite (ask_short_branch _ _ _ Hlt). eexists. split; [ reflexivity | ].
  apply llm_calls_opened.
Qed.

Lemma takes_llm_path_intro id query w :
  indexed w ->
  ~ best_of (map round4 (unrounded_scores sv id query w)) < 3 # 10 ->
  takes_llm_path sv id query w.
Proof.
  intros Hw Hge.
  assert (Hb : Qltb (best_of (map round4 (unrounded_scores sv id query w)))
                    Documents.SIMILARITY_THRESHOLD = false).
  { apply not_true_iff_false. intros Hlt. by apply Hge, Qltb_lt. }
  destruct (ask_llm_branch _ _ _ Hw Hb) as (result & Hq & Hask).
  rewrite ask_question_run in Hq. injection Hq as Hres Hworld.
  unfold takes_llm_path. rewrite Hask. cbn [fst snd]. rewrite <- Hworld.
  eexists _, _, _. split; [ | split; [ reflexivity | ] ].
  - cbn [logged llm_calls]. by rewrite llm_calls_opened.
  - by rewrite <- Hres.
Qed.

(** For an identifier with no collection, [ask] answers from an empty
    retrieval and [extract] from an empty text; neither raises. *)
Lemma ask_never_stored id query w :
  collections w !! collection_name id = None ->
  fst (Documents.ask sv id query w) = Ok (not_found_response 0).
Proof.
  intros Hnone.
  assert (Hnil : unrounded_scores sv id query w = []).
  { unfold unrounded_scores, search_results, rows. by rewrite Hnone. }
  rewrite ask_short_branch; rewrite Hnil; reflexivity.
Qed.

Lemma extract_never_stored json_loads id w :
  collections w !! collection_name id = None ->
  exists v, fst (Documents.extract sv json_loads id w) = Ok v
    /\ llm_calls (snd (Documents.extract sv json_loads id w))
       = llm_calls w ++ [ExtractCall []].
Proof.
  intros Hnone.
  assert (Hrows : rows (collection_name id) w = [])
    by (unfold rows; by rewrite Hnone).
  unfold Documents.extract, mbind, M_bind, bind, try_except.
  rewrite get_full_text_run by (rewrite Hrows; constructor).
  rewrite Hrows, extract_structured_run. cbn [fst snd].
  eexists. split; [ reflexivity | ].
  cbn [logged llm_calls]. by rewrite llm_calls_opened.
Qed.

End AskFacts.

(** C1.  At an identifier that was never stored, here in the empty store,
    [ask] returns the ordinary "Not found in document." response with
    confidence 0 and [extract] returns what the extract chain produced for
    an empty text; neither fails with the document-not-found error the
    routes' handlers are there to raise.  The Chroma constructor creates the
    missing collection, so [retrieve] and [get_full_text] have nothing to
    raise. *)
Theorem ask_and_extract_unknown_document :
  fst (Documents.ask Sample.demo (py "0000deadbeef") (py "What is the rate?")
         empty_world)
  = Ok (not_found_response 0)
  /\ fst (Documents.extract Sample.demo JsonDecoder.json_loads
            (py "0000deadbeef") empty_world)
     = Ok (Llm.JDict [])
  /\ (forall e,
        fst (Documents.ask Sample.demo (py "0000deadbeef")
               (py "What is the rate?") empty_world)
        <> Err e).
Proof.
  split; [ | split ].
  - by apply ask_never_stored.
  - vm_compute. reflexivity.
  - intros e. by rewrite ask_never_stored.
Qed.

(** C2, as stated, fails: one stored chunk at distance 0.70004 has the
    unrounded similarity 0.29996, below 0.3, yet [ask] calls the LLM,
    because the score it compares was rounded to 0.3 by [retrieve]. *)
Lemma ask_threshold_unrounded_counterexample :
  (best_of (unrounded_scores Sample.near_miss Sample.uploaded_id
              (py "What is the rate?") (Sample.one_upload Sample.near_miss))
   < 3 # 10)%Q
  /\ takes_llm_path Sample.near_miss Sample.uploaded_id
       (py "What is the rate?") (Sample.one_upload Sample.near_miss)
  /\ ~ short_circuits Sample.near_miss Sample.uploaded_id
         (py "What is the rate?") (Sample.one_upload Sample.near_miss).
Proof.
  split; [ | split ].
  - vm_compute. reflexivity.
  - apply takes_llm_path_intro.
    + apply (reachable_indexed Sample.near_miss JsonDecoder.json_loads).
      apply Service.reachable_serve, Service.reachable_empty.
    + vm_compute. discriminate.
  - intros (c & _ & Hlog). vm_compute in Hlog. discriminate.
Qed.

(** C2, amended.  The scores [retrieve] reports are the similarities rounded
    to four decimals, and [ask] compares the largest of these rounded scores
    with 0.3: below it the short-circuit response is returned without a call
    to the LLM, otherwise the LLM is called.  In particular a retrieval
    whose unrounded maximum is at least 0.3 takes the LLM path. *)
Theorem ask_threshold_on_rounded_scores (sv : Services)
    (json_loads : str -> option Llm.json) (w : World) (id query : str) :
  Service.reachable sv json_loads w ->
  (exists chunks w1,
      retrieve sv id query 3 w = (Ok chunks, w1)
      /\ map score chunks = map round4 (unrounded_scores sv id query w))
  /\ ((best_of (map round4 (unrounded_scores sv id query w)) < 3 # 10)%Q ->
      short_circuits sv id query w)
  /\ (~ (best_of (map round4 (unrounded_scores sv id query w)) < 3 # 10)%Q ->
      takes_llm_path sv id query w)
  /\ ((3 # 10 <= best_of (unrounded_scores sv id query w))%Q ->
      takes_llm_path sv id query w).
Proof.
  intros Hreach. pose proof (reachable_indexed _ _ _ Hreach) as Hw.
  split; [ | split; [ | split ] ].
  - rewrite retrieve_run. eexists _, _. split; [ reflexivity | ].
    apply reported_scores.
  - apply short_circuits_intro.
  - by apply takes_llm_path_intro.
  - intros Hbest. apply takes_llm_path_intro; [ done | ].
    apply Qle_not_lt. by apply best_of_rounded_threshold.
Qed.

(** Instances: similarity 0.5 on the uploaded document, and an empty
    retrieval. *)
Lemma ask_threshold_on_rounded_scores_witness :
  takes_llm_path Sample.demo Sample.uploaded_id (py "What is the rate?")
    (Sample.one_upload Sample.demo)
  /\ short_circuits Sample.demo (py "0000deadbeef") (py "What is the rate?")
       (Sample.one_upload Sample.demo).
Proof.
  split.
  - apply (ask_threshold_on_rounded_scores Sample.demo JsonDecoder.json_loads).
    + apply Service.reachable_serve, Service.reachable_empty.
    + vm_compute. discriminate.
  - apply (ask_threshold_on_rounded_scores Sample.demo JsonDecoder.json_loads).
    + apply Service.reachable_serve, Service.reachable_empty.
    + vm_compute. reflexivity.
Defined.

(** C3.  When the best of the (up to three) retrieved scores, 0 for an empty
    retrieval, is below 0.3, [ask] returns exactly the answer
    "Not found in document.", no source text, and the rounded best score as
    confidence; the LLM receives no call, and the outcome is the same
    whatever the LLM is. *)
Theorem ask_below_threshold (sv : Services) (w w1 : World) (id query : str)
    (chunks : list Chunk) :
  retrieve sv id query 3 w = (Ok chunks, w1) ->
  (best_of (map score chunks) < 3 # 10)%Q ->
  Documents.ask sv id query w
  = (Ok {| Schemas.answer := py "Not found in document.";
           Schemas.source_text := None;
           Schemas.confidence_score := round4 (best_of (map score chunks)) |},
     w1)
  /\ llm_calls w1 = llm_calls w
  /\ length chunks <= 3
  /\ (forall sv',
        embedding_distance sv' = embedding_distance sv ->
        Documents.ask sv' id query w = Documents.ask sv id query w).
Proof.
  rewrite retrieve_run. intros [= <- <-]. rewrite reported_scores.
  intros Hlt. apply Qltb_lt in Hlt.
  split; [ | split; [ | split ] ].
  - by rewrite (ask_short_branch _ _ _ _ Hlt).
  - apply llm_calls_opened.
  - rewrite length_map. apply search_results_length.
  - intros sv' Hdist.
    assert (Hscores : unrounded_scores sv' id query w
                      = unrounded_scores sv id query w).
    { unfold unrounded_scores, search_results. by rewrite Hdist. }
    rewrite (ask_short_branch sv _ _ _ Hlt).
    rewrite <- Hscores in Hlt |- *.
    by rewrite (ask_short_branch sv' _ _ _ Hlt).
Qed.

(** Instance: every chunk at similarity 0.25. *)
Lemma ask_below_threshold_witness :
  Documents.ask (Sample.services (3 # 4) (py "{}")) Sample.uploaded_id
    (py "What is the rate?")
    (Sample.one_upload (Sample.services (3 # 4) (py "{}")))
  = (Ok {| Schemas.answer := py "Not found in document.";
           Schemas.source_text := None;
           Schemas.confidence_score := 1 # 4 |},
     Sample.one_upload (Sample.services (3 # 4) (py "{}"))).
Proof.
  refine (proj1 (ask_below_threshold (Sample.services (3 # 4) (py "{}"))
                   _ _ Sample.uploaded_id (py "What is the rate?")
                   (map chunk_of
                      (search_results (Sample.services (3 # 4) (py "{}"))
                         Sample.uploaded_id (py "What is the rate?")
                         (Sample.one_upload
                            (Sample.services (3 # 4) (py "{}"))))) _ _)).
  - vm_compute. reflexivity.
  - vm_compute. reflexivity.
Defined.



(** The response of that instance, with an LLM that echoes its context. *)
Example ask_sample :
  fst (Documents.ask Sample.demo Sample.uploaded_id (py "What is the rate?")
         (Sample.one_upload Sample.demo))
  = Ok {| Schemas.answer :=
            py "Rat" ++ [NL; NL] ++ py "---" ++ [NL; NL] ++ py "e: "
            ++ [NL; NL] ++ py "---" ++ [NL; NL] ++ py "120";
          Schemas.source_text := Some (py "Rat");
          Schemas.confidence_score := 1 # 2 |}.
Proof. vm_compute. reflexivity. Qed.

(** ** Lines and fences *)

Section LineFacts.

Lemma split_nl_cons (c : char) (s : str) :
  split [NL] (c :: s)
  = if (c =? NL)%N then [] :: split [NL] s
    else match split [NL] s with
         | piece :: rest => (c :: piece) :: rest
         | [] => [[c]]
         end.
Proof.
  unfold split. cbn [split_go startswith length].
  rewrite (N.eqb_sym NL c). destruct (c =? NL)%N; reflexivity.
Qed.

Lemma split_nl_nonempty (s : str) : split [NL] s <> [].
Proof.
  destruct s as [|c s]; [ done | ]. rewrite split_nl_cons.
  destruct (c =? NL)%N; [ done | ]. by destruct (split [NL] s).
Qed.

(** Splitting at a newline splits the list of lines. *)
Lemma split_nl_app (a b : str) :
  split [NL] (a ++ NL :: b) = split [NL] a ++ split [NL] b.
Proof.
  induction a as [|c a IH];
    [ cbn [app]; rewrite split_nl_cons; reflexivity | ].
  cbn [app]. rewrite !split_nl_cons, IH.
  destruct (c =? NL)%N; [ done | ].
  pose proof (split_nl_nonempty a). by destruct (split [NL] a).
Qed.

Lemma split_nl_one_line (s : str) : NL ∉ s -> split [NL] s = [s].
Proof.
  induction s as [|c s IH]; [ done | ]. intros Hs.
  rewrite split_nl_cons, IH by set_solver.
  destruct (N.eqb_spec c NL); [ set_solver | done ].
Qed.

(** Joining the lines gives the text back. *)
Lemma join_split_nl (s : str) : join [NL] (split [NL] s) = s.
Proof.
  induction s as [|c s IH]; [ done | ]. rewrite split_nl_cons.
  pose proof (split_nl_nonempty s) as Hne.
  destruct (split [NL] s) as [|piece rest] eqn:Hs; [ done | ].
  destruct (N.eqb_spec c NL) as [->|_].
  - by rewrite <- IH.
  - rewrite <- IH. by destruct rest.
Qed.

Lemma filter_all {A} (f : A -> bool) (l : list A) :
  Forall (fun x => f x = true) l -> List.filter f l = l.
Proof.
  induction 1 as [|x l Hx _ IH]; [ done | ].
  simpl. by rewrite Hx, IH.
Qed.

Lemma rstrip_app_fixed (s t : str) :
  t <> [] -> rstrip t = t -> rstrip (s ++ t) = s ++ t.
Proof.
  intros Hne Ht. induction s as [|c s IH]; [ done | ].
  cbn [app rstrip]. rewrite IH. by destruct (s ++ t) eqn:Hst;
    [ apply app_eq_nil in Hst as [_ ?] | ].
Qed.

(** A text between two fences is not changed by [strip]. *)
Lemma strip_fenced (info payload : str) :
  strip (fenced info payload) = fenced info payload.
Proof.
  unfold strip.
  assert (Hl : lstrip (fenced info payload) = fenced info payload)
    by reflexivity.
  rewrite Hl. unfold fenced. rewrite !app_assoc.
  by apply rstrip_app_fixed.
Qed.

Lemma lstrip_app_space (pre x : str) :
  Forall (fun c => isspace c = true) pre -> lstrip (pre ++ x) = lstrip x.
Proof.
  induction 1 as [|c pre Hc _ IH]; [ done | ]. cbn [app lstrip].
  by rewrite Hc.
Qed.

Lemma rstrip_space (post : str) :
  Forall (fun c => isspace c = true) post -> rstrip post = [].
Proof.
  induction 1 as [|c post Hc _ IH]; [ done | ]. cbn [rstrip].
  by rewrite IH, Hc.
Qed.

Lemma rstrip_app_space (x post : str) :
  Forall (fun c => isspace c = true) post -> rstrip (x ++ post) = rstrip x.
Proof.
  intros Hpost. induction x as [|c x IH];
    [ by rewrite rstrip_space | ].
  cbn [app rstrip]. by rewrite IH.
Qed.

(** White space around a fenced text is what [strip] removes. *)
Lemma strip_around_fenced (pre post info payload : str) :
  Forall (fun c => isspace c = true) pre ->
  Forall (fun c => isspace c = true) post ->
  strip (pre ++ fenced info payload ++ post) = fenced info payload.
Proof.
  intros Hpre Hpost. unfold strip. rewrite lstrip_app_space by done.
  assert (Hl : lstrip (fenced info payload ++ post)
               = fenced info payload ++ post) by reflexivity.
  rewrite Hl, rstrip_app_space by done. apply strip_fenced.
Qed.

Lemma startswith_fence_strip (x : str) :
  startswith Llm.FENCE (strip (Llm.FENCE ++ x)) = true.
Proof.
  unfold Llm.FENCE. cbn [app]. rewrite strip_cons_keep by done.
  by rewrite !rstrip_cons_keep.
Qed.

Lemma startswith_fenced info payload :
  startswith Llm.FENCE (fenced info payload) = true.
Proof. reflexivity. Qed.

(** A text that starts with a fence has a first line that does. *)
Lemma startswith_fence_first_line (t : str) :
  startswith Llm.FENCE t = true ->
  exists first rest,
    split [NL] t = first :: rest
    /\ startswith Llm.FENCE (strip first) = true.
Proof.
  unfold Llm.FENCE at 1.
  destruct t as [|a [|b [|c x]]]; cbn [startswith];
    rewrite ?andb_false_r; try done.
  intros Hsw.
  apply andb_true_iff in Hsw as [Ha%N.eqb_eq Hsw].
  apply andb_true_iff in Hsw as [Hb%N.eqb_eq Hsw].
  apply andb_true_iff in Hsw as [Hc%N.eqb_eq _]. subst a b c.
  {
    pose proof (split_nl_nonempty x) as Hne.
    destruct (split [NL] x) as [|piece rest] eqn:Hx; [ done | ].
    exists (Llm.FENCE ++ piece), rest. split.
    + rewrite !split_nl_cons, Hx. reflexivity.
    + apply startswith_fence_strip. }
Qed.

(** What [strip_fences] makes of a fenced payload none of whose lines
    starts with a fence. *)
Lemma strip_fences_fenced (info payload : str) :
  NL ∉ info ->
  Forall (fun l => startswith Llm.FENCE (strip l) = false)
         (split [NL] payload) ->
  Llm.strip_fences (fenced info payload) = payload.
Proof.
  intros Hinfo Hlines. unfold Llm.strip_fences.
  rewrite startswith_fenced. unfold fenced.
  rewrite app_assoc. cbn [app].
  rewrite split_nl_app, split_nl_app.
  rewrite (split_nl_one_line (Llm.FENCE ++ info)).
  2:{ apply not_elem_of_app. split; [ | done ].
      apply (bool_decide_unpack _). vm_compute. exact I. }
  rewrite (split_nl_one_line Llm.FENCE).
  2:{ apply (bool_decide_unpack _). vm_compute. exact I. }
  rewrite !List.filter_app. cbn [List.filter].
  rewrite startswith_fence_strip. cbn [negb app].
  change (startswith Llm.FENCE (strip Llm.FENCE)) with true. cbn [negb].
  rewrite app_nil_r, filter_all; [ apply join_split_nl | ].
  eapply Forall_impl; [ exact Hlines | ]. by intros l ->.
Qed.

End LineFacts.

(** ** The JSON lexer: white space and line starts *)

Section LexerFacts.
Import JsonDecoder.

Lemma isspace_cases (c : char) :
  isspace c = true ->
  (c = 9 \/ c = 10 \/ c = 11 \/ c = 12 \/ c = 13 \/ c = 28
   \/ c = 29 \/ c = 30 \/ c = 31 \/ c = 32 \/ c = 133
   \/ c = 160 \/ c = 5760 \/ c = 8192 \/ c = 8193 \/ c = 8194
   \/ c = 8195 \/ c = 8196 \/ c = 8197 \/ c = 8198 \/ c = 8199
   \/ c = 8200 \/ c = 8201 \/ c = 8202 \/ c = 8232 \/ c = 8233
   \/ c = 8239 \/ c = 8287 \/ c = 12288)%N.
Proof.
  unfold isspace. intros H.
  repeat rewrite ?orb_true_iff, ?andb_true_iff, ?N.leb_le, ?N.eqb_eq in H.
  lia.
Qed.

(** Splits a goal about a white-space character into its 29 cases. *)
Ltac space_cases H :=
  apply isspace_cases in H;
  repeat (destruct H as [H|H]); subst.

(** Between tokens, white space is skipped or refused. *)
Lemma top_step_space toks c st' :
  isspace c = true -> top_step toks c = Some st' -> st' = (Top, toks).
Proof.
  intros Hc Hstep. space_cases Hc; vm_compute in Hstep; congruence.
Qed.

Lemma top_step_backtick toks : top_step toks BACKTICK = None.
Proof. reflexivity. Qed.

Lemma num_step_space ns c :
  isspace c = true -> num_step ns c = None.
Proof. intros Hc. space_cases Hc; by destruct ns. Qed.

Lemma step_wf st c st' :
  wf_mode st.1 -> step st c = Some st' -> wf_mode st'.1.
Proof.
  destruct st as [m toks]. cbn [fst]. intros Hwf Hstep.
  destruct m; cbn [step] in Hstep.
  - unfold top_step in Hstep.
    repeat (match type of Hstep with
            | (if ?b then _ else _) = _ => destruct b
            end;
            [ injection Hstep as <-; cbn; try done;
              repeat constructor | ]).
    done.
  - repeat (match type of Hstep with
            | (if ?b then _ else _) = _ => destruct b
            end; [ try (injection Hstep as <-; done); try done | ]).
    by injection Hstep as <-.
  - destruct (c =? 117)%N; [ by injection Hstep as <- | ].
    destruct (escape_char c); [ by injection Hstep as <- | done ].
  - destruct (hex_value c); [ | done ].
    destruct remaining as [|[|k]]; injection Hstep as <-; cbn [fst];
      try done; unfold push_escape; destruct acc;
      repeat match goal with
             | |- context [if ?b then _ else _] => destruct b
             end; done.
  - destruct (num_step ns c); [ by injection Hstep as <- | ].
    destruct ns;
      try (destruct (c =? 73)%N; [ injection Hstep as <-; cbn;
                                    repeat constructor | done ]);
      cbn [num_accepting] in Hstep; try done;
      unfold top_step in Hstep;
      repeat (match type of Hstep with
              | (if ?b then _ else _) = _ => destruct b
              end;
              [ injection Hstep as <-; cbn; try done;
                repeat constructor | ]);
      done.
  - destruct expected as [|e rest]; [ done | ].
    destruct (c =? e)%N; [ | done ].
    apply Forall_cons in Hwf as [_ Hrest].
    destruct rest; injection Hstep as <-; done.
Qed.

(** A newline is only ever read between tokens. *)
Lemma step_newline st st' :
  wf_mode st.1 -> step st NL = Some st' -> st'.1 = Top.
Proof.
  destruct st as [m toks]. cbn [fst]. intros Hwf Hstep.
  destruct m; cbn [step] in Hstep.
  - by injection Hstep as <-.
  - done.
  - done.
  - done.
  - rewrite num_step_space in Hstep by done.
    destruct ns; cbn in Hstep; try done; by injection Hstep as <-.
  - destruct expected as [|e rest]; [ done | ].
    apply Forall_cons in Hwf as [He _].
    destruct (N.eqb_spec NL e) as [<-|_]; done.
Qed.

(** White space read in a state ends nothing but a number. *)
Lemma step_space_finish st c st' ts :
  wf_mode st.1 -> isspace c = true ->
  step st c = Some st' -> finish st' = Some ts -> finish st = Some ts.
Proof.
  destruct st as [m toks]. cbn [fst]. intros Hwf Hc Hstep Hfin.
  destruct m; cbn [step] in Hstep.
  - by rewrite (top_step_space _ _ _ Hc Hstep) in Hfin.
  - space_cases Hc; vm_compute in Hstep; try done;
      injection Hstep as <-; done.
  - space_cases Hc; vm_compute in Hstep; done.
  - space_cases Hc; vm_compute in Hstep; done.
  - rewrite num_step_space in Hstep by done.
    destruct ns; cbn [num_accepting] in Hstep; try done;
      try (space_cases Hc; vm_compute in Hstep; done);
      by rewrite (top_step_space _ _ _ Hc Hstep) in Hfin.
  - destruct expected as [|e rest]; [ done | ].
    apply Forall_cons in Hwf as [He _].
    destruct (N.eqb_spec c e) as [->|_]; [ congruence | done ].
Qed.

End LexerFacts.

Section DecoderFacts.
Import JsonDecoder.

Lemma line_ok_no_fence (l : str) :
  line_ok l -> startswith Llm.FENCE (strip l) = false.
Proof.
  unfold line_ok, strip. destruct (lstrip l) as [|c r] eqn:Hl; [ done | ].
  intros Hc. rewrite rstrip_cons_keep by by eapply lstrip_head.
  unfold Llm.FENCE. cbn [startswith].
  destruct (N.eqb_spec BACKTICK c); [ congruence | done ].
Qed.

(** In a text the lexer accepts, no line starts with a backtick. *)
Lemma lex_run_lines (s : str) : forall st mid ts,
  wf_mode st.1 -> (st.1 <> Top -> mid = true) ->
  lex_run st s = Some ts -> lines_ok mid s.
Proof.
  induction s as [|c s IH]; intros st mid ts Hwf Hmid Hrun.
  - unfold lines_ok. cbn. split; [ by right | constructor ].
  - cbn [lex_run] in Hrun.
    destruct (step st c) as [st'|] eqn:Hstep; [ | done ].
    pose proof (step_wf _ _ _ Hwf Hstep) as Hwf'.
    unfold lines_ok. rewrite split_nl_cons.
    destruct (N.eqb_spec c NL) as [->|Hnl].
    + pose proof (step_newline _ _ Hwf Hstep) as Htop.
      specialize (IH st' false ts Hwf' (fun H => False_ind _ (H Htop)) Hrun).
      unfold lines_ok in IH.
      pose proof (split_nl_nonempty s).
      destruct (split [NL] s) as [|first rest]; [ done | ].
      destruct IH as [[?|Hfirst] Hrest]; [ done | ].
      split; [ by right | by constructor ].
    + pose proof (split_nl_nonempty s).
      destruct (isspace c) eqn:Hc.
      * destruct mid.
        -- specialize (IH st' true ts Hwf' (fun _ => eq_refl) Hrun).
           unfold lines_ok in IH.
           destruct (split [NL] s) as [|first rest]; [ done | ].
           split; [ by left | apply IH ].
        -- assert (Htop : st.1 = Top).
           { destruct (st.1) eqn:Hm; try done; by specialize (Hmid ltac:(done)). }
           destruct st as [m toks]. cbn [fst] in Htop. subst m.
           cbn [step] in Hstep.
           rewrite (top_step_space _ _ _ Hc Hstep) in Hrun, Hwf'.
           specialize (IH (Top, toks) false ts Hwf'
                          (fun H => False_ind _ (H eq_refl)) Hrun).
           unfold lines_ok in IH.
           destruct (split [NL] s) as [|first rest]; [ done | ].
           destruct IH as [[?|Hfirst] Hrest]; [ done | ].
           split; [ right | done ].
           unfold line_ok. cbn [lstrip]. by rewrite Hc.
      * specialize (IH st' true ts Hwf' (fun _ => eq_refl) Hrun).
        unfold lines_ok in IH.
        destruct (split [NL] s) as [|first rest]; [ done | ].
        split; [ | apply IH ].
        destruct mid; [ by left | right ].
        assert (Htop : st.1 = Top).
        { destruct (st.1) eqn:Hm; try done; by specialize (Hmid ltac:(done)). }
        destruct st as [m toks]. cbn [fst] in Htop. subst m.
        unfold line_ok. cbn [lstrip]. rewrite Hc. intros ->.
        cbn [step] in Hstep. by rewrite top_step_backtick in Hstep.
Qed.

(** Leading white space does not change the tokens. *)
Lemma lex_run_lstrip (s : str) toks ts :
  lex_run (Top, toks) s = Some ts -> lex_run (Top, toks) (lstrip s) = Some ts.
Proof.
  induction s as [|c s IH]; [ done | ]. intros Hrun.
  cbn [lstrip]. destruct (isspace c) eqn:Hc; [ | done ].
  cbn [lex_run step] in Hrun.
  destruct (top_step toks c) as [st'|] eqn:Hstep; [ | done ].
  rewrite (top_step_space _ _ _ Hc Hstep) in Hrun. by apply IH.
Qed.

(** Nor does trailing white space. *)
Lemma lex_run_rstrip (s : str) : forall st ts,
  wf_mode st.1 ->
  lex_run st s = Some ts -> lex_run st (rstrip s) = Some ts.
Proof.
  induction s as [|c s IH]; intros st ts Hwf Hrun; [ done | ].
  cbn [lex_run] in Hrun.
  destruct (step st c) as [st'|] eqn:Hstep; [ | done ].
  pose proof (step_wf _ _ _ Hwf Hstep) as Hwf'.
  specialize (IH st' ts Hwf' Hrun).
  cbn [rstrip]. destruct (rstrip s) as [|x r] eqn:Hr.
  - cbn [lex_run] in IH. destruct (isspace c) eqn:Hc.
    + cbn [lex_run]. by eapply step_space_finish.
    + cbn [lex_run]. by rewrite Hstep.
  - cbn [lex_run]. by rewrite Hstep.
Qed.

Lemma tokenize_strip (s : str) ts :
  tokenize s = Some ts -> tokenize (strip s) = Some ts.
Proof.
  unfold tokenize, strip. intros Hrun.
  apply lex_run_rstrip; [ done | ]. by apply lex_run_lstrip.
Qed.

Lemma json_loads_tokens (s : str) v :
  json_loads s = Some v -> exists ts, tokenize s = Some ts.
Proof.
  unfold json_loads. destruct (tokenize s); [ by eexists | done ].
Qed.

(** The decoder does not see white space around the document. *)
Lemma json_loads_strip (s : str) v :
  json_loads s = Some v -> json_loads (strip s) = Some v.
Proof.
  intros Hv. destruct (json_loads_tokens _ _ Hv) as [ts Hts].
  unfold json_loads in *. rewrite (tokenize_strip _ _ Hts).
  by rewrite Hts in Hv.
Qed.

(** No line of a JSON document starts with a fence. *)
Lemma json_loads_lines (s : str) v :
  json_loads s = Some v ->
  Forall (fun l => startswith Llm.FENCE (strip l) = false) (split [NL] s).
Proof.
  intros Hv. destruct (json_loads_tokens _ _ Hv) as [ts Hts].
  pose proof (lex_run_lines s (Top, []) false ts I
                (fun H => False_ind _ (H eq_refl)) Hts) as Hl.
  unfold lines_ok in Hl.
  destruct (split [NL] s) as [|first rest]; [ constructor | ].
  destruct Hl as [[?|Hfirst] Hrest]; [ done | ].
  constructor; [ by apply line_ok_no_fence | ].
  eapply Forall_impl; [ exact Hrest | ]. apply line_ok_no_fence.
Qed.

End DecoderFacts.

(** ** extract_structured *)

Section AnyDecoder.
Variable sv : Services.
Variable decode : str -> option Llm.json.
Hypothesis decode_strip :
  forall s v, decode s = Some v -> decode (strip s) = Some v.
Hypothesis decode_lines :
  forall s v, decode s = Some v ->
    Forall (fun l => startswith Llm.FENCE (strip l) = false) (split [NL] s).

Lemma decode_no_fence (s : str) v :
  decode s = Some v -> startswith Llm.FENCE (strip s) = false.
Proof using decode_strip decode_lines.
  intros Hv. apply not_true_iff_false. intros Hsw.
  destruct (startswith_fence_first_line _ Hsw) as (first & rest & Hs & Hf).
  pose proof (decode_lines _ _ (decode_strip _ _ Hv)) as Hl.
  rewrite Hs in Hl. apply Forall_cons in Hl as [Hfirst _]. congruence.
Qed.

(** A JSON reply, bare. *)
Lemma extract_plain full_text v w :
  decode (extract_llm sv full_text) = Some v ->
  fst (Llm.extract_structured sv decode full_text w) = Ok v.
Proof using decode_strip decode_lines.
  intros Hv. rewrite extract_structured_run. cbn [fst].
  unfold Llm.strip_fences. rewrite (decode_no_fence _ _ Hv).
  by rewrite (decode_strip _ _ Hv).
Qed.

(** The same reply inside a fence, with white space around it. *)
Lemma extract_fenced full_text pre post info payload v w :
  Forall (fun c => isspace c = true) pre ->
  Forall (fun c => isspace c = true) post ->
  NL ∉ info ->
  decode payload = Some v ->
  extract_llm sv full_text = pre ++ fenced info payload ++ post ->
  fst (Llm.extract_structured sv decode full_text w) = Ok v.
Proof using decode_lines.
  intros Hpre Hpost Hinfo Hv Hreply.
  rewrite extract_structured_run. cbn [fst].
  rewrite Hreply, strip_around_fenced by done.
  rewrite strip_fences_fenced by eauto. by rewrite Hv.
Qed.

End AnyDecoder.



(** C6.  For a reply that is valid JSON, [extract_structured] returns the
    same decoded object whether the LLM returns the reply bare or inside a
    Markdown code fence (an opening fence line with an optional info string,
    the reply, a closing fence line; white space may surround the block). *)
Theorem fenced_reply_same_object (sv_bare sv_fenced : Services)
    (full_text pre post info payload : str) (v : Llm.json) (w : World) :
  JsonDecoder.json_loads payload = Some v ->
  Forall (fun c => isspace c = true) pre ->
  Forall (fun c => isspace c = true) post ->
  NL ∉ info ->
  extract_llm sv_bare full_text = payload ->
  extract_llm sv_fenced full_text = pre ++ fenced info payload ++ post ->
  fst (Llm.extract_structured sv_fenced JsonDecoder.json_loads full_text w)
  = fst (Llm.extract_structured sv_bare JsonDecoder.json_loads full_text w)
  /\ fst (Llm.extract_structured sv_bare JsonDecoder.json_loads full_text w)
     = Ok v.
Proof.
  intros Hv Hpre Hpost Hinfo Hbare Hfenced.
  rewrite (extract_fenced sv_fenced JsonDecoder.json_loads json_loads_lines
             full_text pre post info payload v w) by done.
  rewrite (extract_plain sv_bare JsonDecoder.json_loads json_loads_strip
             json_loads_lines full_text v w) by by rewrite Hbare.
  done.
Qed.

(** Instance: a two-line JSON object, bare and inside a json fence. *)
Lemma fenced_reply_same_object_witness :
  fst (Llm.extract_structured
         (Sample.services (1 # 2)
            ([NL] ++ fenced (py "json")
                       (py "{" ++ [Sample.QUOTE] ++ py "rate"
                        ++ [Sample.QUOTE] ++ py ": 1200," ++ [NL]
                        ++ py " " ++ [Sample.QUOTE] ++ py "mode"
                        ++ [Sample.QUOTE] ++ py ": null}")
             ++ [NL]))
         JsonDecoder.json_loads (py "Rate: 1200") empty_world)
  = fst (Llm.extract_structured
           (Sample.services (1 # 2)
              (py "{" ++ [Sample.QUOTE] ++ py "rate"
               ++ [Sample.QUOTE] ++ py ": 1200," ++ [NL]
               ++ py " " ++ [Sample.QUOTE] ++ py "mode"
               ++ [Sample.QUOTE] ++ py ": null}"))
           JsonDecoder.json_loads (py "Rate: 1200") empty_world)
  /\ fst (Llm.extract_structured
            (Sample.services (1 # 2)
               (py "{" ++ [Sample.QUOTE] ++ py "rate"
                ++ [Sample.QUOTE] ++ py ": 1200," ++ [NL]
                ++ py " " ++ [Sample.QUOTE] ++ py "mode"
                ++ [Sample.QUOTE] ++ py ": null}"))
            JsonDecoder.json_loads (py "Rate: 1200") empty_world)
     = Ok (Llm.JDict [(py "rate", Llm.JInt 1200); (py "mode", Llm.JNull)]).
Proof.
  apply (fenced_reply_same_object _ _ (py "Rate: 1200") [NL] [NL] (py "json")
           (py "{" ++ [Sample.QUOTE] ++ py "rate"
            ++ [Sample.QUOTE] ++ py ": 1200," ++ [NL]
            ++ py " " ++ [Sample.QUOTE] ++ py "mode"
            ++ [Sample.QUOTE] ++ py ": null}")).
  - vm_compute. reflexivity.
  - repeat constructor.
  - repeat constructor.
  - apply (bool_decide_unpack _). vm_compute. exact I.
  - reflexivity.
  - reflexivity.
Defined.

Example splitext_samples :
  OsPath.splitext (py "rate.con.PDF") = (py "rate.con", py ".PDF")
  /\ OsPath.splitext (py ".bashrc") = (py ".bashrc", [])
  /\ OsPath.splitext (py "a.b/c") = (py "a.b/c", [])
  /\ OsPath.splitext (py "dir/..x.txt") = (py "dir/..x", py ".txt")
  /\ OsPath.splitext (py "dir/...") = (py "dir/...", [])
  /\ OsPath.join (py "/srv/uploads") (py "a.txt") = py "/srv/uploads/a.txt"
  /\ OsPath.join (py "/srv/uploads") (py "/etc/a.txt") = py "/etc/a.txt"
  /\ OsPath.join (py "/srv/uploads/") (py "a.txt") = py "/srv/uploads/a.txt".
Proof. vm_compute. repeat split. Qed.

(** * Further properties *)

Import Spec2.

(** ** Stripping *)

Section StripFacts.

Lemma lstrip_all_space (s : str) :
  Forall (fun c => isspace c = true) s -> lstrip s = [].
Proof.
  induction 1 as [|c s Hc _ IH]; [ done | ]. cbn [lstrip]. by rewrite Hc.
Qed.

Lemma strip_all_space (s : str) :
  Forall (fun c => isspace c = true) s -> strip s = [].
Proof. intros H. unfold strip. by rewrite lstrip_all_space. Qed.

Lemma rstrip_idem (s : str) : rstrip (rstrip s) = rstrip s.
Proof.
  induction s as [|c s IH]; [ done | ]. cbn [rstrip].
  destruct (rstrip s) as [|x r] eqn:Hr.
  - destruct (isspace c) eqn:Hc; [ done | ]. cbn [rstrip]. by rewrite Hc.
  - cbn [rstrip]. cbn [rstrip] in IH. by rewrite IH.
Qed.

Lemma lstrip_fixed (s : str) : lstrip (lstrip s) = lstrip s.
Proof.
  induction s as [|c s IH]; [ done | ]. cbn [lstrip].
  destruct (isspace c) eqn:Hc; [ done | ]. cbn [lstrip]. by rewrite Hc.
Qed.

(** [strip] is idempotent. *)
Lemma strip_idem (s : str) : strip (strip s) = strip s.
Proof.
  unfold strip. destruct (lstrip s) as [|c r] eqn:Hl; [ done | ].
  pose proof (lstrip_head _ _ _ Hl) as Hc.
  rewrite rstrip_cons_keep by done.
  rewrite lstrip_cons_keep by done.
  rewrite <- (rstrip_cons_keep c r) by done. apply rstrip_idem.
Qed.

Lemma lstrip_suffix (s : str) : exists pre, s = pre ++ lstrip s.
Proof.
  induction s as [|c s [pre IH]]; [ by exists [] | ]. cbn [lstrip].
  destruct (isspace c); [ | by exists [] ].
  exists (c :: pre). cbn [app]. by rewrite <- IH.
Qed.

Lemma rstrip_prefix (s : str) : exists post, s = rstrip s ++ post.
Proof.
  induction s as [|c s [post IH]]; [ by exists [] | ]. cbn [rstrip].
  destruct (rstrip s) as [|x r] eqn:Hr.
  - destruct (isspace c).
    + by exists (c :: s).
    + exists post. cbn [app] in *. by rewrite <- IH.
  - exists post. cbn [app] in *. by rewrite <- IH.
Qed.

(** What [strip] returns is a part of its argument. *)
Lemma strip_infix (s : str) : exists pre post, s = pre ++ strip s ++ post.
Proof.
  destruct (lstrip_suffix s) as [pre Hpre].
  destruct (rstrip_prefix (lstrip s)) as [post Hpost].
  exists pre, post. unfold strip. by rewrite <- Hpost.
Qed.

Lemma strip_keeps_absent (c : char) (s : str) : c ∉ s -> c ∉ strip s.
Proof.
  destruct (strip_infix s) as (pre & post & Hs). intros Hc Hin.
  apply Hc. rewrite Hs. rewrite !elem_of_app. auto.
Qed.

End StripFacts.

(** ** Lines, once more *)

Section MoreLineFacts.

(** The lines [split] returns hold no newline. *)
Lemma split_nl_lines (s : str) : Forall (fun l => NL ∉ l) (split [NL] s).
Proof.
  induction s as [|c s IH]; [ repeat constructor; by apply not_elem_of_nil | ].
  rewrite split_nl_cons. destruct (N.eqb_spec c NL) as [->|Hc].
  - constructor; [ apply not_elem_of_nil | done ].
  - pose proof (split_nl_nonempty s).
    destruct (split [NL] s) as [|piece rest]; [ done | ].
    apply Forall_cons in IH as [Hp Hrest]. constructor; [ | done ].
    intros Hin. apply elem_of_cons in Hin as [?|?]; [ congruence | done ].
Qed.

(** Splitting what was joined gives the lines back. *)
Lemma split_join_nl (lines : list str) :
  lines <> [] -> Forall (fun l => NL ∉ l) lines ->
  split [NL] (join [NL] lines) = lines.
Proof.
  induction lines as [|l lines IH]; [ done | ]. intros _ Hall.
  apply Forall_cons in Hall as [Hl Hall].
  destruct lines as [|l' lines].
  - cbn [join]. by apply split_nl_one_line.
  - change (join [NL] (l :: l' :: lines))
      with (l ++ [NL] ++ join [NL] (l' :: lines)).
    cbn [app]. rewrite split_nl_app, split_nl_one_line by done.
    cbn [app]. by rewrite IH.
Qed.

End MoreLineFacts.

(** ** parser.py, further *)

Section ParserMore.

Lemma enumerate_bounds {A} (start : nat) (l : list A) (i : nat) (x : A) :
  (i, x) ∈ enumerate start l -> start <= i < start + length l.
Proof.
  unfold enumerate. intros Hin. apply elem_of_zip_l in Hin.
  apply elem_of_seq in Hin. lia.
Qed.


(** A table label and a text label of the same page differ. *)
Lemma page_labels_differ (n : nat) (x y : str) :
  page_table_label n ++ x <> page_text_label n ++ y.
Proof.
  unfold page_table_label, page_text_label. rewrite <- !app_assoc.
  intros H. do 4 apply app_inv_head in H. vm_compute in H. discriminate.
Qed.

Lemma flat_map_singleton_length {A B} (f : A -> list B) (l : list A) :
  (forall x, length (f x) <= 1) -> length (flat_map f l) <= length l.
Proof.
  intros Hf. induction l as [|x l IH]; [ done | ].
  cbn [flat_map]. rewrite length_app. specialize (Hf x). cbn [length]. lia.
Qed.

End ParserMore.

(** X1.  On a PDF page where tables were found, the lines of the free-text
    section are the page's text lines trimmed, none of them empty and none
    of them equal to a (trimmed) cell of a table of that page. *)
Theorem pdf_text_section_excludes_table_cells (n : nat) (page : pdf_page)
    (content : str) :
  truthy (extract_tables page) = true ->
  truthy (find_tables page) = true ->
  page_text_label n ++ [NL] ++ content ∈ parse_pdf_page n page ->
  Forall (fun l => l <> [] /\ strip l = l /\ ~ is_table_cell page l
                   /\ exists line,
                        line ∈ split [NL] (default [] (extract_text page))
                        /\ l = strip line)
         (split [NL] content).
Proof.
  intros Htables Hboxes Hin. unfold parse_pdf_page in Hin.
  rewrite Htables, Hboxes in Hin.
  apply elem_of_app in Hin as [Hin|Hin].
  - apply list_elem_of_In, in_flat_map in Hin as (table & _ & Hin).
    destruct (truthy (strip (_table_to_text table))); [ | done ].
    apply list_elem_of_In, list_elem_of_singleton in Hin.
    symmetry in Hin. by apply page_labels_differ in Hin.
  - match type of Hin with
    | context [truthy ?parts] => set (kept := parts) in *
    end.
    destruct (truthy kept) eqn:Hkept; [ | by apply elem_of_nil in Hin ].
    apply list_elem_of_singleton in Hin.
    apply app_inv_head in Hin. apply app_inv_head in Hin. subst content.
    assert (Hall : Forall (fun l => l <> [] /\ strip l = l
                       /\ ~ is_table_cell page l
                       /\ exists line,
                            line ∈ split [NL] (default [] (extract_text page))
                            /\ l = strip line) kept).
    { unfold kept. apply Forall_flat_map, Forall_forall. intros line Hline.
      cbv zeta. destruct (truthy (strip line)) eqn:Ht; [ | constructor ].
      cbn [andb]. case_bool_decide as Hcell; constructor; [ | constructor ].
      split; [ by apply truthy_true | ]. split; [ apply strip_idem | ].
      split; [ done | ]. by exists line. }
    rewrite split_join_nl; [ done | by apply truthy_true | ].
    eapply Forall_impl; [ exact Hall | ].
    intros l (_ & _ & _ & line & Hline & ->).
    apply strip_keeps_absent.
    pose proof (split_nl_lines (default [] (extract_text page))) as Hl.
    rewrite Forall_forall in Hl. by apply Hl.
Qed.

(** Instance: the sample page, whose text repeats the cell "Rate". *)
Lemma pdf_text_section_excludes_table_cells_witness :
  Forall (fun l => l <> [] /\ strip l = l
            /\ ~ is_table_cell
                   {| extract_tables := [[[Some (py "Rate"); Some (py " 1200 ")]]];
                      find_tables := [(0, 0, 10, 10)%Q];
                      extract_text :=
                        Some (py "Rate" ++ [NL] ++ py "Carrier: ACME") |} l
            /\ exists line,
                 line ∈ split [NL] (py "Rate" ++ [NL] ++ py "Carrier: ACME")
                 /\ l = strip line)
         (split [NL] (py "Carrier: ACME")).
Proof.
  apply (pdf_text_section_excludes_table_cells 1
           {| extract_tables := [[[Some (py "Rate"); Some (py " 1200 ")]]];
              find_tables := [(0, 0, 10, 10)%Q];
              extract_text := Some (py "Rate" ++ [NL] ++ py "Carrier: ACME") |}
           (py "Carrier: ACME")).
  - reflexivity.
  - reflexivity.
  - apply (bool_decide_unpack _). vm_compute. exact I.
Defined.

Section PdfPages.

Lemma parse_pdf_page_labelled_at (n : nat) (page : pdf_page) :
  Forall (labelled (fun l => l = page_table_label n \/ l = page_text_label n))
         (parse_pdf_page n page).
Proof.
  unfold parse_pdf_page. apply Forall_app. split.
  - destruct (truthy (extract_tables page)); [ | constructor ].
    apply Forall_flat_map, Forall_forall. intros table _.
    destruct (truthy (strip (_table_to_text table))) eqn:Ht; [ | constructor ].
    constructor; [ | constructor ].
    apply labelled_intro;
      [ by left | apply page_table_label_line
      | by apply strip_truthy_nonempty ].
  - destruct (truthy (if truthy (extract_tables page)
                      then find_tables page else [])).
    + match goal with
      | |- context [truthy ?parts] =>
          destruct (truthy parts) eqn:Hparts; [ | constructor ]
      end.
      constructor; [ | constructor ].
      apply labelled_intro; [ by right | apply page_text_label_line | ].
      apply join_nonempty; [ by apply truthy_true | ].
      apply Forall_flat_map, Forall_forall. intros line _. cbv zeta.
      destruct (truthy (strip line)) eqn:Ht; cbn [andb]; [ | constructor ].
      case_bool_decide; constructor; [ | constructor ].
      by apply truthy_true.
    + destruct (extract_text page) as [text|]; [ | constructor ].
      destruct (truthy text && truthy (strip text)) eqn:Ht; [ | constructor ].
      apply andb_true_iff in Ht as [_ Ht].
      constructor; [ | constructor ].
      apply labelled_intro;
        [ by right | apply page_text_label_line | by apply truthy_true ].
Qed.

Lemma parse_pdf_page_length (n : nat) (page : pdf_page) :
  length (parse_pdf_page n page) <= length (extract_tables page) + 1.
Proof.
  unfold parse_pdf_page. rewrite length_app. apply Nat.add_le_mono.
  - destruct (truthy (extract_tables page)); [ | cbn; lia ].
    apply flat_map_singleton_length. intros table.
    destruct (truthy (strip (_table_to_text table))); cbn; lia.
  - repeat match goal with
           | |- context [if ?b then _ else _] => destruct b
           | |- context [match ?o with Some _ => _ | None => _ end] =>
               destruct o
           end; cbn; lia.
Qed.

Lemma enumerate_cons {A} (start : nat) (x : A) (l : list A) :
  enumerate start (x :: l) = (start, x) :: enumerate (S start) l.
Proof. reflexivity. Qed.

Lemma parse_pdf_pages_length_from (start : nat) (pages : list pdf_page) :
  length (flat_map (fun '(page_num, page) => parse_pdf_page page_num page)
                   (enumerate start pages))
  <= length (flat_map extract_tables pages) + length pages.
Proof.
  revert start. induction pages as [|page pages IH]; intros start; [ done | ].
  rewrite enumerate_cons. cbn [flat_map length].
  rewrite !length_app. specialize (IH (S start)).
  pose proof (parse_pdf_page_length start page). lia.
Qed.

End PdfPages.

(** X2.  Every section of a PDF is labelled with the number of one of its
    pages, counted from 1, and a PDF gives at most one section per table
    plus one per page. *)
Theorem pdf_sections_name_existing_pages (pages : list pdf_page) :
  Forall (fun s => exists n,
            1 <= n <= length pages
            /\ labelled (fun l => l = page_table_label n
                                  \/ l = page_text_label n) s)
         (parse_pdf_pages pages)
  /\ length (parse_pdf_pages pages)
     <= length (flat_map extract_tables pages) + length pages.
Proof.
  split.
  - unfold parse_pdf_pages. apply Forall_flat_map, Forall_forall.
    intros [n page] Hin. apply enumerate_bounds in Hin.
    eapply Forall_impl; [ apply parse_pdf_page_labelled_at | ].
    intros s Hs. exists n. split; [ lia | done ].
  - apply parse_pdf_pages_length_from.
Qed.

(** X3.  A PDF none of whose pages has a table or any text other than white
    space gives no section at all. *)
Theorem pdf_without_content_has_no_sections (pages : list pdf_page) :
  Forall (fun page =>
            extract_tables page = []
            /\ match extract_text page with
               | Some text => Forall (fun c => isspace c = true) text
               | None => True
               end) pages ->
  parse_pdf_pages pages = [].
Proof.
  intros Hpages. unfold parse_pdf_pages.
  generalize 1 as start. induction Hpages as [|page pages [Ht Hx] _ IH];
    intros start; [ done | ].
  rewrite enumerate_cons. cbn [flat_map]. rewrite IH, app_nil_r.
  unfold parse_pdf_page. rewrite Ht. cbn [truthy app].
  destruct (extract_text page) as [text|]; [ | done ].
  by rewrite strip_all_space, andb_false_r.
Qed.

(** Instance: a scanned two-page PDF, one page blank, one with no text layer. *)
Lemma pdf_without_content_has_no_sections_witness :
  parse_pdf_pages
    [ {| extract_tables := []; find_tables := [];
         extract_text := Some (py "  " ++ [NL] ++ py " ") |};
      {| extract_tables := []; find_tables := []; extract_text := None |} ]
  = [].
Proof.
  apply pdf_without_content_has_no_sections.
  repeat constructor.
Defined.


Section DocxBlocks.

(** The paragraph loop, for every content of its accumulator: the sections
    are the renderings of blocks that together hold the accumulated and
    the remaining non-empty paragraphs, in order. *)
Lemma docx_text_sections_blocks (paras block : list str) :
  exists blocks,
    docx_text_sections paras block = map text_section blocks
    /\ concat blocks
       = block ++ List.filter truthy (map strip paras)
    /\ Forall (fun b => b <> []) blocks.
Proof.
  revert block. induction paras as [|para rest IH]; intros block.
  - cbn [docx_text_sections map List.filter]. rewrite app_nil_r.
    destruct block as [|x block].
    + by exists [].
    + exists [x :: block]. split; [ reflexivity | ].
      split; [ cbn [concat]; by rewrite app_nil_r | by constructor ].
  - cbn [docx_text_sections map List.filter].
    destruct (truthy (strip para)) eqn:Hp.
    + destruct (IH (block ++ [strip para])) as (blocks & Hs & Hc & Hne).
      exists blocks. split; [ done | ]. split; [ | done ].
      by rewrite Hc, <- app_assoc.
    + destruct block as [|x block].
      * cbn [truthy]. destruct (IH []) as (blocks & Hs & Hc & Hne).
        by exists blocks.
      * cbn [truthy]. destruct (IH []) as (blocks & Hs & Hc & Hne).
        exists ((x :: block) :: blocks). split; [ | split ].
        -- cbn [map]. by rewrite Hs.
        -- cbn [concat]. by rewrite Hc.
        -- by constructor.
Qed.

End DocxBlocks.

(** X5.  The text sections of a DOCX hold every paragraph that is not empty
    once trimmed, each exactly once and in document order: they are the
    renderings of non-empty blocks whose concatenation is the list of those
    trimmed paragraphs. *)
Theorem docx_paragraphs_all_kept (paras : list str) :
  exists blocks,
    docx_text_sections paras [] = map text_section blocks
    /\ concat blocks = List.filter truthy (map strip paras)
    /\ Forall (fun b => b <> []) blocks.
Proof. apply (docx_text_sections_blocks paras []). Qed.

Section TxtBlocks.

(** The pieces [split] returns are made of characters of the text. *)
Lemma split_go_chars (P : char -> Prop) (sep s : str) (skip : nat) :
  Forall P s -> Forall (Forall P) (split_go sep s skip).
Proof.
  intros Hs. revert skip. induction Hs as [|c s Hc Hs IH]; intros skip.
  - repeat constructor.
  - cbn [split_go]. destruct skip as [|k]; [ | apply IH ].
    destruct (startswith sep (c :: s)).
    + constructor; [ constructor | apply IH ].
    + specialize (IH 0). destruct (split_go sep s 0) as [|piece rest].
      * repeat constructor. done.
      * apply Forall_cons in IH as [Hp Hrest].
        constructor; [ by constructor | done ].
Qed.

End TxtBlocks.

(** X6.  The content of every section of a text file is trimmed and not
    empty, there is at most one section per block, and a file that holds
    only white space gives no section. *)
Theorem txt_sections_trimmed (content : str) :
  Forall (fun s => exists block,
            s = text_label ++ [NL] ++ block
            /\ block <> [] /\ strip block = block)
         (parse_txt_content content)
  /\ length (parse_txt_content content) <= length (split [NL; NL] content)
  /\ (Forall (fun c => isspace c = true) content ->
      parse_txt_content content = []).
Proof.
  split; [ | split ].
  - unfold parse_txt_content. apply Forall_flat_map, Forall_forall.
    intros block _. cbv zeta.
    destruct (truthy (strip block)) eqn:Hb; [ | constructor ].
    constructor; [ | constructor ]. exists (strip block).
    split; [ done | ]. split; [ by apply truthy_true | apply strip_idem ].
  - unfold parse_txt_content. apply flat_map_singleton_length.
    intros block. cbv zeta. destruct (truthy (strip block)); cbn; lia.
  - intros Hspace. unfold parse_txt_content.
    pose proof (split_go_chars _ [NL; NL] content 0 Hspace) as Hblocks.
    fold (split [NL; NL] content) in Hblocks.
    induction Hblocks as [|block blocks Hb _ IH]; [ done | ].
    cbn [flat_map]. rewrite IH, app_nil_r.
    by rewrite (strip_all_space _ Hb).
Qed.

(** Instance: a file of blank lines. *)
Lemma txt_sections_trimmed_witness :
  parse_txt_content (py "  " ++ [NL; NL; NL] ++ py " " ++ [NL]) = [].
Proof.
  apply (txt_sections_trimmed (py "  " ++ [NL; NL; NL] ++ py " " ++ [NL])).
  repeat constructor.
Defined.

(** ** os.path *)

Section OsPathFacts.
Import OsPath.

(** What [rfind] finds: nothing and -1, or the index of an occurrence
    with no later one. *)
Lemma rfind_from_spec (c : char) (p : str) (i : Z) :
  (0 <= i)%Z ->
  (rfind_from c p i = (-1)%Z /\ c ∉ p)
  \/ exists a b,
       p = a ++ c :: b /\ (c ∉ b)
       /\ rfind_from c p i = (i + Z.of_nat (length a))%Z.
Proof.
  revert i. induction p as [|x p IH]; intros i Hi.
  - left. split; [ done | apply not_elem_of_nil ].
  - cbn [rfind_from].
    destruct (IH (i + 1)%Z ltac:(lia)) as [[Hr Hp]|(a & b & -> & Hb & Hr)].
    + rewrite Hr. change (0 <=? -1)%Z with false. cbv iota.
      destruct (N.eqb_spec x c) as [->|Hx].
      * right. exists [], p. split; [ done | ]. split; [ done | ].
        cbn [length]. lia.
      * left. split; [ done | ]. intros Hin.
        apply elem_of_cons in Hin as [?|?]; [ congruence | done ].
    + right. exists (x :: a), b. split; [ done | ]. split; [ done | ].
      rewrite Hr. cbn [length].
      destruct (Z.leb_spec 0 (i + 1 + Z.of_nat (length a))); lia.
Qed.

(** A non-empty extension is a dot and the dot-free end of the path, and
    the root is what comes before. *)
Lemma splitext_extension (p ext : str) :
  (splitext p).2 = ext -> ext <> [] ->
  exists root e,
    p = root ++ EXTSEP :: e /\ ext = EXTSEP :: e /\ (EXTSEP ∉ e)
    /\ (splitext p).1 = root.
Proof.
  unfold splitext. intros Hext Hne.
  destruct (_ && _) eqn:Hcond; [ | by subst ].
  apply andb_true_iff in Hcond as [Hlt _]. apply Z.ltb_lt in Hlt.
  cbn [fst snd] in *.
  destruct (rfind_from_spec EXTSEP p 0 ltac:(done)) as [[Hr _]|(a & b & Hp & Hb & Hr)].
  - fold (rfind EXTSEP p) in Hr.
    destruct (rfind_from_spec SEP p 0 ltac:(done)) as [[Hs _]|(a' & b' & _ & _ & Hs)];
      fold (rfind SEP p) in Hs; lia.
  - fold (rfind EXTSEP p) in Hr. rewrite Hr in Hext |- *.
    rewrite Z.add_0_l, Nat2Z.id in Hext |- *. subst p.
    rewrite drop_app_length in Hext. rewrite take_app_length.
    by exists a, b.
Qed.

(** Without a dot there is no extension. *)
Lemma splitext_no_dot (p : str) : EXTSEP ∉ p -> splitext p = (p, []).
Proof.
  intros Hp. unfold splitext.
  destruct (rfind_from_spec EXTSEP p 0 ltac:(done)) as [[Hr _]|(a & b & -> & _ & _)].
  - fold (rfind EXTSEP p) in Hr. rewrite Hr.
    destruct (Z.ltb_spec (rfind SEP p) (-1)%Z) as [Hlt|_]; [ | done ].
    destruct (rfind_from_spec SEP p 0 ltac:(done))
      as [[Hs _]|(a' & b' & _ & _ & Hs)];
      fold (rfind SEP p) in Hs; lia.
  - exfalso. apply Hp. apply elem_of_app. right. left.
Qed.

(** The joined path ends with the second argument. *)
Lemma join_suffix (a b : str) : exists pre, join a b = pre ++ b.
Proof.
  unfold join. destruct (startswith [SEP] b); [ by exists [] | ].
  destruct (negb (truthy a) || endswith [SEP] a).
  - by exists a.
  - exists (a ++ [SEP]). by rewrite <- app_assoc.
Qed.


Lemma lower_extension (e : str) :
  lower (EXTSEP :: e) ∈ Upload.SUPPORTED_EXTENSIONS ->
  lower e = py "pdf" \/ lower e = py "docx" \/ lower e = py "txt".
Proof.
  unfold Upload.SUPPORTED_EXTENSIONS. cbn [lower map].
  change (lower_char EXTSEP) with EXTSEP. fold (lower e).
  rewrite !elem_of_union, !elem_of_singleton.
  intros [[H|H]|H]; vm_compute in H; injection H as H; auto.
Qed.

End OsPathFacts.

(** ** documents.py: upload *)

Section UploadFacts.
Import OsPath Upload.
Variable sv : Services.
Variable UPLOAD_DIR : str.

(** What [upload] does once the name has passed the extension check. *)
Lemma upload_accepted (f : UploadFile) (fs : FileSystem) (w : World)
    (name : str) :
  filename f = Some name -> name <> [] ->
  lower (splitext name).2 ∈ SUPPORTED_EXTENSIONS ->
  upload sv UPLOAD_DIR f fs w
  = match parse_document (write_file (join UPLOAD_DIR name) (file f) fs)
                         (join UPLOAD_DIR name) with
    | Err e => (Err e, write_file (join UPLOAD_DIR name) (file f) fs, w)
    | Ok sections =>
        if negb (truthy sections)
        then (Err (HTTPException 422 no_text_detail),
              write_file (join UPLOAD_DIR name) (file f) fs, w)
        else (Ok {| doc_id := take 12 (uuid4_hex sv (uuids_drawn w));
                    response_filename := name;
                    num_chunks :=
                      length (indexed_documents sv
                                (take 12 (uuid4_hex sv (uuids_drawn w)))
                                sections name);
                    message :=
                      py "Document uploaded and indexed successfully." |},
              write_file (join UPLOAD_DIR name) (file f) fs,
              snd (store_chunks sv sections name w))
    end.
Proof.
  intros Hname Hne Hext. unfold upload. rewrite Hname.
  destruct name as [|c name]; [ done | ]. cbn [truthy negb].
  rewrite bool_decide_eq_false_2 by (intros H; by apply H).
  cbv zeta. destruct (parse_document _ _) as [sections|e]; [ | done ].
  destruct (negb (truthy sections)); [ done | ].
  by rewrite store_chunks_run.
Qed.

(** On accepted names the route and the parser see the same extension. *)
Lemma accepted_extension (name : str) :
  lower (splitext name).2 ∈ SUPPORTED_EXTENSIONS ->
  EXTSEP :: extension (join UPLOAD_DIR name) = lower (splitext name).2
  /\ (extension (join UPLOAD_DIR name) = py "pdf"
      \/ extension (join UPLOAD_DIR name) = py "docx"
      \/ extension (join UPLOAD_DIR name) = py "txt").
Proof.
  intros Hext.
  assert (Hne : (splitext name).2 <> []).
  { intros Hnil. rewrite Hnil in Hext. unfold SUPPORTED_EXTENSIONS in Hext.
    rewrite !elem_of_union, !elem_of_singleton in Hext.
    destruct Hext as [[H|H]|H]; vm_compute in H; discriminate. }
  destruct (splitext_extension name _ eq_refl Hne)
    as (root & e & Hname & He & Hdot & _).
  rewrite He in Hext |- *.
  destruct (join_suffix UPLOAD_DIR name) as [pre Hjoin].
  rewrite Hjoin, Hname, app_assoc.
  rewrite (extension_after_last_dot _ e Hdot).
  split; [ done | ]. by apply lower_extension.
Qed.

Lemma parse_document_supported (fs : FileSystem) (path : str) (e : str) :
  extension path = py "pdf" \/ extension path = py "docx"
  \/ extension path = py "txt" ->
  parse_document fs path <> Err (UnsupportedFileType e).
Proof.
  intros H. unfold parse_document. repeat case_bool_decide.
  - apply parse_pdf_not_unsupported.
  - apply parse_docx_not_unsupported.
  - apply parse_txt_not_unsupported.
  - destruct H as [?|[?|?]]; congruence.
Qed.

End UploadFacts.

(** X7.  [upload] answers 400 and neither writes a file nor touches the
    store when the request has no file name, or when the name's extension
    in the sense of [os.path.splitext] is not .pdf, .docx or .txt in any
    letter case; this includes every name without a dot. *)
Theorem upload_rejects_unsupported_names (sv : Services) (UPLOAD_DIR : str)
    (f : Upload.UploadFile) (fs : FileSystem) (w : World) :
  (Upload.filename f = None \/ Upload.filename f = Some [] ->
   Upload.upload sv UPLOAD_DIR f fs w
   = (Err (HTTPException 400 (py "No filename provided")), fs, w))
  /\ (forall name,
        Upload.filename f = Some name -> name <> [] ->
        lower (OsPath.splitext name).2 ∉ Upload.SUPPORTED_EXTENSIONS ->
        Upload.upload sv UPLOAD_DIR f fs w
        = (Err (HTTPException 400
                  (Upload.unsupported_detail
                     (lower (OsPath.splitext name).2))), fs, w))
  /\ (forall name,
        Upload.filename f = Some name -> name <> [] ->
        OsPath.EXTSEP ∉ name ->
        Upload.upload sv UPLOAD_DIR f fs w
        = (Err (HTTPException 400 (Upload.unsupported_detail [])), fs, w)).
Proof.
  assert (Hreject : forall name,
             Upload.filename f = Some name -> name <> [] ->
             lower (OsPath.splitext name).2 ∉ Upload.SUPPORTED_EXTENSIONS ->
             Upload.upload sv UPLOAD_DIR f fs w
             = (Err (HTTPException 400
                       (Upload.unsupported_detail
                          (lower (OsPath.splitext name).2))), fs, w)).
  { intros name Hname Hne Hext. unfold Upload.upload. rewrite Hname.
    destruct name as [|c name]; [ done | ]. cbn [truthy negb].
    by rewrite bool_decide_eq_true_2. }
  split; [ | split ].
  - unfold Upload.upload. by intros [-> | ->].
  - exact Hreject.
  - intros name Hname Hne Hdot.
    specialize (Hreject name Hname Hne).
    rewrite splitext_no_dot in Hreject by done. apply Hreject.
    unfold Upload.SUPPORTED_EXTENSIONS.
    rewrite !elem_of_union, !elem_of_singleton.
    intros [[H|H]|H]; vm_compute in H; discriminate.
Qed.

(** Instances: a name without a dot, and a name that is only an extension. *)
Lemma upload_rejects_unsupported_names_witness :
  Upload.upload Sample.demo (py "/srv/uploads")
    (text_upload (py "README") (py "Rate: 1200")) no_files empty_world
  = (Err (HTTPException 400 (Upload.unsupported_detail [])),
     no_files, empty_world)
  /\ Upload.upload Sample.demo (py "/srv/uploads")
       (text_upload (py ".txt") (py "Rate: 1200")) no_files empty_world
     = (Err (HTTPException 400 (Upload.unsupported_detail [])),
        no_files, empty_world).
Proof.
  split.
  - apply (proj2 (proj2 (upload_rejects_unsupported_names Sample.demo
                           (py "/srv/uploads")
                           (text_upload (py "README") (py "Rate: 1200"))
                           no_files empty_world)) (py "README")).
    + reflexivity.
    + discriminate.
    + apply (bool_decide_unpack _). vm_compute. exact I.
  - apply (proj1 (proj2 (upload_rejects_unsupported_names Sample.demo
                           (py "/srv/uploads")
                           (text_upload (py ".txt") (py "Rate: 1200"))
                           no_files empty_world)) (py ".txt")).
    + reflexivity.
    + discriminate.
    + apply (bool_decide_unpack _). vm_compute. exact I.
Defined.

(** X8.  A name [upload] accepts has, after [os.path.join] with the upload
    directory, the same extension for [parse_document] as the route saw, so
    [parse_document] takes the matching parser and its unsupported-file-type
    error never comes out of [upload]. *)
Theorem upload_and_parser_agree_on_extension (sv : Services)
    (UPLOAD_DIR : str) (f : Upload.UploadFile) (fs : FileSystem) (w : World) :
  (forall name,
      lower (OsPath.splitext name).2 ∈ Upload.SUPPORTED_EXTENSIONS ->
      OsPath.EXTSEP :: extension (OsPath.join UPLOAD_DIR name)
      = lower (OsPath.splitext name).2)
  /\ (forall e, (Upload.upload sv UPLOAD_DIR f fs w).1.1
                <> Err (UnsupportedFileType e)).
Proof.
  split.
  - intros name Hext. by apply accepted_extension.
  - intros e. destruct (Upload.filename f) as [name|] eqn:Hname;
      [ | unfold Upload.upload; by rewrite Hname ].
    destruct (decide (name = [])) as [->|Hne];
      [ unfold Upload.upload; by rewrite Hname | ].
    destruct (decide (lower (OsPath.splitext name).2
                      ∈ Upload.SUPPORTED_EXTENSIONS)) as [Hext|Hext].
    + rewrite (upload_accepted sv UPLOAD_DIR f fs w name) by done.
      pose proof (parse_document_supported
                    (Upload.write_file (OsPath.join UPLOAD_DIR name)
                       (Upload.file f) fs)
                    (OsPath.join UPLOAD_DIR name) e
                    (proj2 (accepted_extension UPLOAD_DIR name Hext))) as Hp.
      destruct (parse_document _ _) as [sections|e']; [ | cbn; congruence ].
      by destruct (negb (truthy sections)).
    + unfold Upload.upload. rewrite Hname.
      destruct name as [|c name]; [ done | ]. cbn [truthy negb].
      by rewrite bool_decide_eq_true_2.
Qed.

(** Instance: a name with several dots and capitals. *)
Lemma upload_and_parser_agree_on_extension_witness :
  OsPath.EXTSEP :: extension (OsPath.join (py "/srv/uploads")
                                (py "rate.con.PDF"))
  = py ".pdf".
Proof.
  apply (proj1 (upload_and_parser_agree_on_extension Sample.demo
                  (py "/srv/uploads")
                  (text_upload (py "rate.con.PDF") []) no_files empty_world)
           (py "rate.con.PDF")).
  apply (bool_decide_unpack _). vm_compute. exact I.
Defined.

Section UploadOutcomes.
Import OsPath Upload.

(** Every label starts with a bracket, which is not white space. *)
Lemma labelled_has_text (is_label : str -> Prop) (s : str) :
  (forall l, is_label l -> exists r, l = 91%N :: r) ->
  labelled is_label s -> exists c, c ∈ s /\ isspace c = false.
Proof.
  intros Hl (label & content & -> & Hlabel & _ & _).
  destruct (Hl _ Hlabel) as [r ->]. exists 91%N. split; [ left | done ].
Qed.

Lemma pdf_label_bracket l : pdf_label l -> exists r, l = 91%N :: r.
Proof. intros [n [->| ->]]; eexists; reflexivity. Qed.

Lemma docx_label_bracket l : docx_label l -> exists r, l = 91%N :: r.
Proof. intros [[i ->]| ->]; eexists; reflexivity. Qed.

Lemma txt_label_bracket l : txt_label l -> exists r, l = 91%N :: r.
Proof. intros ->; eexists; reflexivity. Qed.

(** Whatever [parse_document] returns holds something to index. *)
Lemma parse_document_sections_have_text (fs : FileSystem) (path : str)
    (sections : list str) :
  parse_document fs path = Ok sections ->
  Forall (fun s => exists c, c ∈ s /\ isspace c = false) sections.
Proof.
  unfold parse_document, parse_pdf, parse_docx, parse_txt.
  repeat case_bool_decide; try done.
  - destruct (pdfplumber_open fs path); [ done | ]. intros [= <-].
    eapply Forall_impl; [ apply parse_pdf_pages_labelled | ].
    intros x. apply labelled_has_text, pdf_label_bracket.
  - destruct (docx_Document fs path); [ done | ]. intros [= <-].
    eapply Forall_impl; [ apply parse_docx_document_labelled | ].
    intros x. apply labelled_has_text, docx_label_bracket.
  - destruct (read_utf8 fs path); [ done | ]. intros [= <-].
    eapply Forall_impl; [ apply parse_txt_content_labelled | ].
    intros x. apply labelled_has_text, txt_label_bracket.
Qed.

Lemma flat_map_nonempty {A B} (f : A -> list B) (l : list A) :
  l <> [] -> Forall (fun x => f x <> []) l -> flat_map f l <> [].
Proof.
  destruct l as [|x l]; [ done | ]. intros _ Hall.
  apply Forall_cons in Hall as [Hx _]. cbn [flat_map].
  intros Happ. by apply app_eq_nil in Happ as [? _].
Qed.

End UploadOutcomes.



(** X10.  A successful upload reports the identifier it drew (the first 12
    characters of the uuid), the name it was given, and as num_chunks the
    number of rows it appended to the collection of that identifier; when
    the splitter returns at least one piece for every text that is not all
    white space, that number is at least one. *)
Theorem successful_upload_indexes_chunks (sv : Services) (UPLOAD_DIR : str)
    (f : Upload.UploadFile) (fs fs' : FileSystem) (w w' : World)
    (resp : Upload.UploadResponse) :
  Upload.upload sv UPLOAD_DIR f fs w = (Ok resp, fs', w') ->
  Upload.doc_id resp = take 12 (uuid4_hex sv (uuids_drawn w))
  /\ Upload.filename f = Some (Upload.response_filename resp)
  /\ (exists docs,
        collections w' !! collection_name (Upload.doc_id resp)
        = Some (rows (collection_name (Upload.doc_id resp)) w ++ docs)
        /\ length docs = Upload.num_chunks resp
        /\ map (fun d => chunk_index (metadata d)) docs
           = map (fun i => Some (Z.of_nat i)) (seq 0 (length docs)))
  /\ ((forall s, (exists c, c ∈ s /\ isspace c = false) ->
                 split_text sv s <> []) ->
      1 <= Upload.num_chunks resp).
Proof.
  intros Hup. destruct (Upload.filename f) as [name|] eqn:Hname;
    [ | unfold Upload.upload in Hup; by rewrite Hname in Hup ].
  destruct (decide (name = [])) as [->|Hne];
    [ unfold Upload.upload in Hup; by rewrite Hname in Hup | ].
  destruct (decide (lower (OsPath.splitext name).2
                    ∈ Upload.SUPPORTED_EXTENSIONS)) as [Hext|Hext].
  2:{ unfold Upload.upload in Hup. rewrite Hname in Hup.
      destruct name as [|c name]; [ done | ]. cbn [truthy negb] in Hup.
      by rewrite bool_decide_eq_true_2 in Hup. }
  rewrite (upload_accepted sv UPLOAD_DIR f fs w name) in Hup by done.
  destruct (parse_document _ _) as [sections|e0] eqn:Hparse; [ | done ].
  destruct (truthy sections) eqn:Hsec; [ | done ]. cbn [negb] in Hup.
  rewrite store_chunks_run in Hup. cbn [snd] in Hup.
  injection Hup as <- <- <-. cbn [Upload.doc_id Upload.response_filename
                                   Upload.num_chunks].
  split; [ done | ]. split; [ done | ]. split.
  - eexists. cbn [collections].
    rewrite lookup_insert_eq. split; [ reflexivity | ].
    split; [ done | apply indexed_documents_indices ].
  - intros Hsplit.
    rewrite <- (length_map page_content), indexed_documents_contents.
    assert (Hne' : flat_map (split_text sv) sections <> []).
    { apply flat_map_nonempty; [ by apply truthy_true | ].
      eapply Forall_impl;
        [ exact (parse_document_sections_have_text _ _ _ Hparse) | ].
      intros s Hs. by apply Hsplit. }
    destruct (flat_map (split_text sv) sections); [ done | cbn; lia ].
Qed.

(** Instance: a two-paragraph text file. *)
Lemma successful_upload_indexes_chunks_witness :
  1 <= 11.
Proof.
  refine (proj2 (proj2 (proj2
    (successful_upload_indexes_chunks Sample.demo (py "/srv/uploads")
       (text_upload (py "rate.txt")
          (py "Shipper: ACME" ++ [NL; NL] ++ py "Rate"))
       no_files
       (Upload.upload Sample.demo (py "/srv/uploads")
          (text_upload (py "rate.txt")
             (py "Shipper: ACME" ++ [NL; NL] ++ py "Rate"))
          no_files empty_world).1.2
       empty_world
       (Upload.upload Sample.demo (py "/srv/uploads")
          (text_upload (py "rate.txt")
             (py "Shipper: ACME" ++ [NL; NL] ++ py "Rate"))
          no_files empty_world).2
       {| Upload.doc_id := py "3f2a9c0d1b7e";
          Upload.response_filename := py "rate.txt";
          Upload.num_chunks := 11;
          Upload.message :=
            py "Document uploaded and indexed successfully." |} _))) _).
  - vm_compute. reflexivity.
  - intros [|c s] [c' [Hin _]]; [ by apply elem_of_nil in Hin | done ].
Defined.

(** ** rag.py, further *)

Section StoreFacts.
Variable sv : Services.

(** Rows whose keys already ascend are left in place by the sort. *)
Lemma sort_by_ascending {A} (key : A -> Z) (l : list A) (k : nat) :
  map key l = map Z.of_nat (seq k (length l)) -> sort_by Z.leb key l = l.
Proof.
  revert k. induction l as [|x l IH]; intros k Hkeys; [ done | ].
  cbn [length seq map] in Hkeys. injection Hkeys as Hx Hl.
  cbn [sort_by foldr]. fold (sort_by Z.leb key l). rewrite (IH (S k) Hl).
  destruct l as [|y l]; [ done | ].
  cbn [length seq map] in Hl. injection Hl as Hy _.
  cbn [insert_by]. rewrite Hx, Hy.
  destruct (Z.leb_spec (Z.of_nat k) (Z.of_nat (S k))); [ done | lia ].
Qed.

Lemma indexed_documents_keys id sections fname :
  map index_of (indexed_documents sv id sections fname)
  = map Z.of_nat (seq 0 (length (indexed_documents sv id sections fname))).
Proof.
  unfold indexed_documents. rewrite length_imap.
  by apply imap_projection.
Qed.

Lemma get_full_text_state id w :
  snd (get_full_text id w) = opened (collection_name id) w.
Proof.
  unfold get_full_text, _get_vectorstore, mbind, M_bind, bind.
  rewrite Chroma_run. unfold get. by destruct (sort_keys _).
Qed.


End StoreFacts.

(** X11.  When the identifier it draws is new to the store, what
    [store_chunks] stores reads back whole: [get_full_text] of the returned
    identifier is the pieces of all sections, in the splitter's order,
    joined with two newlines, and the count returned is their number. *)
Theorem stored_chunks_read_back_in_order (sv : Services)
    (sections : list str) (fname id : str) (n : nat) (w w' : World) :
  collections w
    !! collection_name (take 12 (uuid4_hex sv (uuids_drawn w))) = None ->
  store_chunks sv sections fname w = (Ok (id, n), w') ->
  get_full_text id w'
  = (Ok (join [NL; NL] (flat_map (split_text sv) sections)), w')
  /\ n = length (flat_map (split_text sv) sections).
Proof.
  intros Hfresh. rewrite store_chunks_run. intros [= <- <- <-].
  set (id := take 12 (uuid4_hex sv (uuids_drawn w))) in *.
  set (docs := indexed_documents sv id sections fname).
  set (w' := {| collections := _ |}).
  assert (Hnew : collections w' !! collection_name id = Some docs).
  { unfold w'. cbn [collections]. rewrite lookup_insert_eq.
    unfold rows. by rewrite Hfresh. }
  assert (Hrows : rows (collection_name id) w' = docs)
    by (unfold rows; by rewrite Hnew).
  split.
  - rewrite get_full_text_run
      by (rewrite Hrows; apply indexed_documents_indexed).
    rewrite Hrows, (opened_present _ _ _ Hnew).
    rewrite (sort_by_ascending index_of docs 0)
      by apply indexed_documents_keys.
    unfold docs. by rewrite indexed_documents_contents.
  - unfold docs.
    by rewrite <- (length_map page_content), indexed_documents_contents.
Qed.

(** Instance: the sample upload into the empty store. *)
Lemma stored_chunks_read_back_in_order_witness :
  get_full_text Sample.uploaded_id (Sample.one_upload Sample.demo)
  = (Ok (join [NL; NL]
           (flat_map (split_text Sample.demo) [py "Rate: 1200"])),
     Sample.one_upload Sample.demo)
  /\ 4 = length (flat_map (split_text Sample.demo) [py "Rate: 1200"]).
Proof.
  apply (stored_chunks_read_back_in_order Sample.demo [py "Rate: 1200"]
           (py "rate.txt") Sample.uploaded_id 4 empty_world).
  - reflexivity.
  - reflexivity.
Defined.

(** X12.  The store is append-only and only [store_chunks] writes to it:
    a request leaves every collection's rows as a prefix of what it holds
    afterwards; [ask] and [extract] leave all rows as they were and draw no
    uuid; [store_chunks] changes the rows of no collection but its own and
    records no LLM call. *)
Theorem requests_only_append (sv : Services)
    (json_loads : str -> option Llm.json) (w : World) (name : str) :
  (forall r, rows name w `prefix_of` rows name (Service.serve sv json_loads r w))
  /\ (forall id question,
        rows name (Service.serve sv json_loads (Service.Ask id question) w)
        = rows name w
        /\ uuids_drawn (Service.serve sv json_loads (Service.Ask id question) w)
           = uuids_drawn w)
  /\ (forall id,
        rows name (Service.serve sv json_loads (Service.Extract id) w)
        = rows name w
        /\ uuids_drawn (Service.serve sv json_loads (Service.Extract id) w)
           = uuids_drawn w)
  /\ (forall sections fname,
        (name <> collection_name (take 12 (uuid4_hex sv (uuids_drawn w))) ->
         rows name (Service.serve sv json_loads
                      (Service.StoreChunks sections fname) w)
         = rows name w)
        /\ llm_calls (Service.serve sv json_loads
                        (Service.StoreChunks sections fname) w)
           = llm_calls w).
Proof.
  assert (Hopen : forall n, uuids_drawn (opened n w) = uuids_drawn w).
  { intros n. unfold opened, Chroma. by destruct (collections w !! n). }
  assert (Hask : forall id question,
             rows name (snd (Documents.ask sv id question w)) = rows name w
             /\ uuids_drawn (snd (Documents.ask sv id question w))
                = uuids_drawn w).
  { intros id question. rewrite ask_run. cbv zeta.
    destruct (Qltb _ _); [ cbn [snd]; by rewrite rows_opened, Hopen | ].
    pose proof (get_full_text_state id (opened (collection_name id) w)) as Hs.
    destruct (get_full_text id (opened (collection_name id) w))
      as [[full_text|e] w2]; cbn [snd] in Hs; subst w2;
      rewrite opened_opened.
    - rewrite ask_question_run. cbn [snd].
      unfold logged, rows. cbn [collections uuids_drawn].
      fold (rows name (opened (collection_name id) w)).
      by rewrite rows_opened, Hopen.
    - cbn [snd]. by rewrite rows_opened, Hopen. }
  assert (Hextract : forall id,
             rows name (snd (Documents.extract sv json_loads id w))
             = rows name w
             /\ uuids_drawn (snd (Documents.extract sv json_loads id w))
                = uuids_drawn w).
  { intros id. unfold Documents.extract, mbind, M_bind, bind, try_except.
    pose proof (get_full_text_state id w) as Hs.
    destruct (get_full_text id w) as [[full_text|e] w2];
      cbn [snd] in Hs; subst w2.
    - rewrite extract_structured_run. cbn [snd].
      unfold logged, rows. cbn [collections uuids_drawn].
      fold (rows name (opened (collection_name id) w)).
      by rewrite rows_opened, Hopen.
    - unfold raise. cbn [snd]. by rewrite rows_opened, Hopen. }
  assert (Hstore : forall sections fname,
             rows name w
               `prefix_of` rows name (snd (store_chunks sv sections fname w))
             /\ (name <> collection_name
                           (take 12 (uuid4_hex sv (uuids_drawn w))) ->
                 rows name (snd (store_chunks sv sections fname w))
                 = rows name w)
             /\ llm_calls (snd (store_chunks sv sections fname w))
                = llm_calls w).
  { intros sections fname. rewrite store_chunks_run. cbn [snd].
    unfold rows at 2 4. cbn [collections llm_calls].
    destruct (decide (collection_name (take 12 (uuid4_hex sv (uuids_drawn w)))
                      = name)) as [<-|Hne].
    - rewrite lookup_insert_eq. cbn [default].
      split; [ by eexists | ]. split; [ done | done ].
    - rewrite lookup_insert_ne by done. fold (rows name w).
      split; [ done | ]. split; [ done | done ]. }
  split; [ | split; [ | split ] ].
  - intros [sections fname|id question|id]; cbn [Service.serve].
    + apply Hstore.
    + by rewrite (proj1 (Hask id question)).
    + by rewrite (proj1 (Hextract id)).
  - intros id question. apply Hask.
  - intros id. apply Hextract.
  - intros sections fname. cbn [Service.serve].
    destruct (Hstore sections fname) as (_ & H1 & H2). split; [ | done ].
    intros Hne. apply H1. done.
Qed.

(** Instance: an upload leaves the rows of another collection alone. *)
Lemma requests_only_append_witness :
  rows (py "doc_0000deadbeef")
    (Service.serve Sample.demo JsonDecoder.json_loads
       (Service.StoreChunks [py "Weight: 40000 lb"] (py "bol.txt"))
       (world_with (py "doc_0000deadbeef") [bare_row (py "Rate: 1200")]))
  = rows (py "doc_0000deadbeef")
      (world_with (py "doc_0000deadbeef") [bare_row (py "Rate: 1200")]).
Proof.
  apply (proj2 (proj2 (proj2
    (requests_only_append Sample.demo JsonDecoder.json_loads
       (world_with (py "doc_0000deadbeef") [bare_row (py "Rate: 1200")])
       (py "doc_0000deadbeef"))))).
  vm_compute. discriminate.
Defined.



(** ** Ranking and rounding *)

Section QSortFacts.
Context {A : Type} (key : A -> Q).
Local Open Scope Q_scope.

Let R (a b : A) : Prop := key a <= key b.





End QSortFacts.

Section RoundFacts.
Local Open Scope Q_scope.






Lemma round4_0 : round4 0 = 0.
Proof. reflexivity. Qed.






End RoundFacts.


Section ConfidenceFacts.
Local Open Scope Q_scope.



End ConfidenceFacts.



(** ** llm.py, further *)

Section FenceFacts.

Lemma filter_keeps_true {A} (f : A -> bool) (l : list A) :
  Forall (fun x => f x = true) (List.filter f l).
Proof.
  apply Forall_forall. intros x Hx.
  by apply list_elem_of_In, filter_In in Hx as [_ Hx].
Qed.

Lemma filter_keeps_Forall {A} (P : A -> Prop) (f : A -> bool) (l : list A) :
  Forall P l -> Forall P (List.filter f l).
Proof.
  rewrite !Forall_forall. intros Hl x Hx.
  apply list_elem_of_In, filter_In in Hx as [Hx _].
  by apply Hl, list_elem_of_In.
Qed.

Lemma filter_length_le {A} (f : A -> bool) (l : list A) :
  length (List.filter f l) <= length l.
Proof.
  induction l as [|x l IH]; [ done | ]. cbn [List.filter].
  destruct (f x); cbn [length]; lia.
Qed.

(** The lines [strip_fences] keeps, when the text starts with a fence. *)
Lemma strip_fences_lines (raw : str) :
  startswith Llm.FENCE raw = true ->
  exists lines,
    Llm.strip_fences raw = join [NL] lines
    /\ Forall (fun l => startswith Llm.FENCE (strip l) = false) lines
    /\ Forall (fun l => NL ∉ l) lines
    /\ length lines < length (split [NL] raw).
Proof.
  intros Hsw. unfold Llm.strip_fences. rewrite Hsw. cbv zeta.
  eexists. split; [ reflexivity | ]. split; [ | split ].
  - eapply Forall_impl; [ apply filter_keeps_true | ].
    intros l Hl. by apply negb_true_iff in Hl.
  - apply filter_keeps_Forall, split_nl_lines.
  - destruct (startswith_fence_first_line _ Hsw) as (first & rest & -> & Hf).
    cbn [List.filter]. rewrite Hf. cbn [negb length].
    pose proof (filter_length_le
                  (fun l => negb (startswith Llm.FENCE (strip l))) rest).
    lia.
Qed.

End FenceFacts.

(** X16.  What [strip_fences] returns never starts with a fence, so applying
    it twice changes nothing more; and when the text did start with a fence,
    no line of the result starts with one, indentation aside, and at least
    one line was dropped. *)
Theorem strip_fences_leaves_no_fence (raw : str) :
  startswith Llm.FENCE (Llm.strip_fences raw) = false
  /\ Llm.strip_fences (Llm.strip_fences raw) = Llm.strip_fences raw
  /\ (startswith Llm.FENCE raw = true ->
      Forall (fun l => startswith Llm.FENCE (strip l) = false)
             (split [NL] (Llm.strip_fences raw))
      /\ (Llm.strip_fences raw = []
          \/ length (split [NL] (Llm.strip_fences raw))
             < length (split [NL] raw))).
Proof.
  assert (Hlines : startswith Llm.FENCE raw = true ->
            Forall (fun l => startswith Llm.FENCE (strip l) = false)
                   (split [NL] (Llm.strip_fences raw))
            /\ (Llm.strip_fences raw = []
                \/ length (split [NL] (Llm.strip_fences raw))
                   < length (split [NL] raw))).
  { intros Hsw.
    destruct (strip_fences_lines raw Hsw) as (lines & -> & Hok & Hnl & Hlen).
    destruct lines as [|l lines].
    - split; [ by repeat constructor | by left ].
    - rewrite split_join_nl by done. split; [ done | by right ]. }
  assert (Hstart : startswith Llm.FENCE (Llm.strip_fences raw) = false).
  { destruct (startswith Llm.FENCE raw) eqn:Hsw.
    - destruct (Hlines eq_refl) as [Hok _].
      apply not_true_iff_false. intros Hr.
      destruct (startswith_fence_first_line _ Hr)
        as (first & rest & Hs & Hf).
      rewrite Hs in Hok. apply Forall_cons in Hok as [Hfirst _]. congruence.
    - unfold Llm.strip_fences. by rewrite Hsw. }
  split; [ exact Hstart | ]. split; [ | exact Hlines ].
  unfold Llm.strip_fences at 1. by rewrite Hstart.
Qed.

(** Instance: a fenced object with a line of prose after the closing fence. *)
Lemma strip_fences_leaves_no_fence_witness :
  Forall (fun l => startswith Llm.FENCE (strip l) = false)
         (split [NL]
            (Llm.strip_fences
               (Llm.FENCE ++ py "json" ++ [NL] ++ py "{}" ++ [NL]
                ++ py "  " ++ Llm.FENCE ++ [NL] ++ py "Done."))).
Proof.
  apply (proj2 (proj2 (strip_fences_leaves_no_fence
           (Llm.FENCE ++ py "json" ++ [NL] ++ py "{}" ++ [NL]
            ++ py "  " ++ Llm.FENCE ++ [NL] ++ py "Done.")))).
  reflexivity.
Defined.

(** X17.  A reply that holds its fence and its JSON on one line is lost:
    when the stripped reply starts with a fence and has no newline,
    [extract_structured] drops the whole line and returns the fallback
    mapping with an empty raw_response, whatever JSON stood after the
    fence. *)
Theorem one_line_fenced_reply_is_lost (sv : Services) (full_text : str)
    (w : World) :
  startswith Llm.FENCE (strip (extract_llm sv full_text)) = true ->
  NL ∉ strip (extract_llm sv full_text) ->
  fst (Llm.extract_structured sv JsonDecoder.json_loads full_text w)
  = Ok (Llm.parse_failure []).
Proof.
  intros Hsw Hnl. rewrite extract_structured_run. cbn [fst].
  assert (Hempty : Llm.strip_fences (strip (extract_llm sv full_text)) = []).
  { unfold Llm.strip_fences. rewrite Hsw, (split_nl_one_line _ Hnl).
    cbn [List.filter]. by rewrite strip_idem, Hsw. }
  by rewrite Hempty.
Qed.

(** Instance: an object inside a fence, all on one line. *)
Lemma one_line_fenced_reply_is_lost_witness :
  fst (Llm.extract_structured
         (Sample.services (1 # 2)
            (Llm.FENCE ++ py "json {" ++ [Sample.QUOTE] ++ py "rate"
             ++ [Sample.QUOTE] ++ py ": 1200} " ++ Llm.FENCE))
         JsonDecoder.json_loads (py "Rate: 1200") empty_world)
  = Ok (Llm.JDict
          [(py "raw_response", Llm.JStr []);
           (py "error", Llm.JStr (py "Failed to parse LLM JSON output"))]).
Proof.
  apply (one_line_fenced_reply_is_lost
           (Sample.services (1 # 2)
              (Llm.FENCE ++ py "json {" ++ [Sample.QUOTE] ++ py "rate"
               ++ [Sample.QUOTE] ++ py ": 1200} " ++ Llm.FENCE))).
  - reflexivity.
  - apply (bool_decide_unpack _). vm_compute. exact I.
Defined.

(** X18.  [ask] calls the LLM at most once, and only when the document's
    collection holds a row; the call carries the question.  [extract] calls
    it exactly once, with the full text, when [get_full_text] succeeded, and
    not at all when it answers with the document-not-found error. *)
Theorem llm_calls_per_request (sv : Services)
    (json_loads : str -> option Llm.json) (id question : str) (w : World) :
  (llm_calls (snd (Documents.ask sv id question w)) = llm_calls w
   \/ exists context full_text resp,
        llm_calls (snd (Documents.ask sv id question w))
        = llm_calls w ++ [AskCall context full_text question]
        /\ fst (get_full_text id (opened (collection_name id) w))
           = Ok full_text
        /\ fst (Documents.ask sv id question w) = Ok resp
        /\ rows (collection_name id) w <> [])
  /\ match fst (get_full_text id w) with
     | Ok full_text =>
         llm_calls (snd (Documents.extract sv json_loads id w))
         = llm_calls w ++ [ExtractCall full_text]
     | Err _ =>
         llm_calls (snd (Documents.extract sv json_loads id w)) = llm_calls w
         /\ fst (Documents.extract sv json_loads id w)
            = Err (Documents.DocumentNotFound id)
     end.
Proof.
  split.
  - rewrite ask_run. cbv zeta.
    destruct (Qltb _ _) eqn:Hlt;
      [ left; cbn [snd]; apply llm_calls_opened | ].
    pose proof (get_full_text_state id (opened (collection_name id) w)) as Hs.
    destruct (get_full_text id (opened (collection_name id) w))
      as [[full_text|e] w2]; cbn [snd] in Hs; subst w2;
      rewrite opened_opened;
      [ | left; cbn [snd]; apply llm_calls_opened ].
    right. rewrite ask_question_run. cbn [fst snd].
    eexists _, full_text, _. split; [ | split; [ done | split; [ done | ] ] ].
    + cbn [logged llm_calls]. by rewrite llm_calls_opened.
    + intros Hrows. unfold search_results in Hlt. rewrite Hrows in Hlt.
      discriminate Hlt.
  - unfold Documents.extract, mbind, M_bind, bind, try_except.
    pose proof (get_full_text_state id w) as Hs.
    destruct (get_full_text id w) as [[full_text|e] w2];
      cbn [fst snd] in *; subst w2.
    + rewrite extract_structured_run. cbn [snd logged llm_calls].
      by rewrite llm_calls_opened.
    + unfold raise. cbn [fst snd]. by rewrite llm_calls_opened.
Qed.



(** ** parser.py: tables *)

Section TableFacts.

Lemma rstrip_nil_all_space (s : str) :
  rstrip s = [] -> Forall (fun c => isspace c = true) s.
Proof.
  induction s as [|c s IH]; [ constructor | ]. cbn [rstrip].
  destruct (rstrip s) as [|x r]; [ | done ].
  destruct (isspace c) eqn:Hc; [ | done ]. intros _. constructor; auto.
Qed.

Lemma lstrip_nil_all_space (s : str) :
  lstrip s = [] -> Forall (fun c => isspace c = true) s.
Proof.
  induction s as [|c s IH]; [ constructor | ]. cbn [lstrip].
  destruct (isspace c) eqn:Hc; [ | done ]. intros H. constructor; auto.
Qed.

Lemma strip_nil_all_space (s : str) :
  strip s = [] -> Forall (fun c => isspace c = true) s.
Proof.
  unfold strip. destruct (lstrip s) as [|c r] eqn:Hl.
  - intros _. by apply lstrip_nil_all_space.
  - rewrite rstrip_cons_keep by (by eapply lstrip_head). done.
Qed.

(** A text with a character that is not white space has text once trimmed. *)
Lemma strip_keeps_text (c : char) (s : str) :
  c ∈ s -> isspace c = false -> truthy (strip s) = true.
Proof.
  intros Hin Hc. destruct (strip s) eqn:Hs; [ | done ].
  apply strip_nil_all_space in Hs. rewrite Forall_forall in Hs.
  specialize (Hs c Hin). congruence.
Qed.

Lemma join_has_sep (sep a b : str) (rest : list str) (c : char) :
  c ∈ sep -> c ∈ join sep (a :: b :: rest).
Proof.
  intros Hc. change (join sep (a :: b :: rest))
    with (a ++ sep ++ join sep (b :: rest)).
  rewrite !elem_of_app. auto.
Qed.

Lemma join_has_piece (sep l : str) (ls : list str) (c : char) :
  l ∈ ls -> c ∈ l -> c ∈ join sep ls.
Proof.
  intros Hl Hc. induction ls as [|x ls IH]; [ by apply elem_of_nil in Hl | ].
  destruct ls as [|y ls].
  - apply elem_of_cons in Hl as [->|Hl]; [ done | by apply elem_of_nil in Hl ].
  - change (join sep (x :: y :: ls)) with (x ++ sep ++ join sep (y :: ls)).
    rewrite !elem_of_app.
    apply elem_of_cons in Hl as [->|Hl]; [ by left | right; right; auto ].
Qed.

End TableFacts.

(** X20.  A table that has a row of two or more cells always gives a table
    section, even when every cell is empty: the rendering then still holds
    the column separator, which the emptiness test of [parse_pdf] does not
    trim away. *)
Theorem table_with_columns_is_kept (n : nat) (page : pdf_page)
    (table : pdf_table) (row : list (option str)) :
  table ∈ extract_tables page ->
  row ∈ table ->
  2 <= length row ->
  page_table_label n ++ [NL] ++ _table_to_text table ∈ parse_pdf_page n page.
Proof.
  intros Htable Hrow Hlen.
  assert (Hbar : (124 : char)%N ∈ _table_to_text table).
  { unfold _table_to_text. cbv zeta.
    eapply join_has_piece.
    - apply list_elem_of_fmap. exists row. split; [ reflexivity | exact Hrow ].
    - cbv beta. destruct row as [|a [|b row]]; cbn [length] in Hlen; [ lia | lia | ].
      cbn [map]. apply join_has_sep.
      apply (bool_decide_unpack _). vm_compute. exact I. }
  assert (Htext : truthy (strip (_table_to_text table)) = true).
  { by apply (strip_keeps_text 124%N). }
  unfold parse_pdf_page. cbv zeta.
  destruct (extract_tables page) as [|t ts] eqn:Hts;
    [ by apply elem_of_nil in Htable | ].
  cbn [truthy]. apply elem_of_app. left.
  apply list_elem_of_In, in_flat_map. exists table.
  split; [ by apply list_elem_of_In | ].
  rewrite Htext. by left.
Qed.

(** Instance: a table of one row with two empty cells, on page 1. *)
Lemma table_with_columns_is_kept_witness :
  page_table_label 1 ++ [NL] ++ py " | "
  ∈ parse_pdf_page 1
      {| extract_tables := [[[None; None]]];
         find_tables := [];
         extract_text := None |}.
Proof.
  apply (table_with_columns_is_kept 1
           {| extract_tables := [[[None; None]]];
              find_tables := [];
              extract_text := None |}
           [[None; None]] [None; None]).
  - apply elem_of_cons. by left.
  - apply elem_of_cons. by left.
  - cbn [length]. lia.
Defined.
